(** * mockfirestore.transforms: field transforms and the merge engine

    A shallow embedding of [src/mockfirestore/transforms.py].  Python
    values are an inductive type, exceptions are an error monad, the
    mutable payload [data] is threaded explicitly, and the lazy document
    iterator is a traversal that re-reads the payload at every step, so
    that writes made by the loop body are seen by the iteration as they
    are in CPython. *)

From Stdlib Require Import ZArith List String Ascii Bool Lia Permutation.
From Stdlib Require Import Floats.SpecFloat.
Import ListNotations.
Local Open Scope string_scope.
Local Open Scope list_scope.
Local Open Scope Z_scope.

Set Warnings "-register-all".

(** ** Exceptions and results *)

Inductive exn : Type :=
| ValueError
| TypeError
| KeyError
| IndexError
| OverflowError
| RuntimeError.

Inductive result (A : Type) : Type :=
| Ok (a : A)
| Raise (e : exn).

Arguments Ok {A} a.
Arguments Raise {A} e.

Definition bind {A B : Type} (r : result A) (k : A -> result B) : result B :=
  match r with
  | Ok a => k a
  | Raise e => Raise e
  end.

Notation "x <- r ;; k" := (bind r (fun x => k))
  (at level 61, r at next level, right associativity).

(** [try: r except (TypeError, KeyError): dflt]. *)
Definition except_TypeError_KeyError {A : Type} (r : result A) (dflt : A)
  : result A :=
  match r with
  | Ok a => Ok a
  | Raise TypeError => Ok dflt
  | Raise KeyError => Ok dflt
  | Raise e => Raise e
  end.

(** ** Python values

    [float] is IEEE binary64, taken from the specification side of the
    standard library ([prec = 53], [emax = 1024]).  A [dict] keeps its
    insertion order.  The five instruction classes of the module are
    constructors of the same type, since an instruction is an ordinary
    object stored in the payload. *)

Definition prec : Z := 53.
Definition emax : Z := 1024.

Inductive value : Type :=
| VNone
| VBool (b : bool)
| VInt (z : Z)
| VFloat (f : spec_float)
| VStr (s : string)
| VList (l : list value)
| VDict (d : list (string * value))
| ArrayUnion (values : list value)
| ArrayRemove (values : list value)
| Increment (v : value)
| Maximum (v : value)
| Minimum (v : value).

Definition dict : Type := list (string * value).

(** *** dict primitives *)

Fixpoint dict_get (k : string) (d : dict) : option value :=
  match d with
  | [] => None
  | (k', v) :: rest => if String.eqb k k' then Some v else dict_get k rest
  end.

(** [d[k] = v]: an existing key keeps its position, a new key goes last. *)
Fixpoint dict_set (k : string) (v : value) (d : dict) : dict :=
  match d with
  | [] => [(k, v)]
  | (k', v') :: rest =>
      if String.eqb k k' then (k', v) :: rest
      else (k', v') :: dict_set k v rest
  end.

(** [d.update(other)]. *)
Definition dict_update (d other : dict) : dict :=
  fold_left (fun acc kv => dict_set (fst kv) (snd kv) acc) other d.

Definition keys (d : dict) : list string := map fst d.

(** *** Numbers

    [isinstance(x, (int, float))] holds of [bool], [int] and [float].
    Comparisons between numbers are exact in Python, also between an
    [int] and a [float]; every number is read as NaN, an infinity or a
    dyadic [m * 2^e]. *)

Definition isinstance_int_float (v : value) : bool :=
  match v with
  | VBool _ | VInt _ | VFloat _ => true
  | _ => false
  end.

Definition isinstance_float (v : value) : bool :=
  match v with
  | VFloat _ => true
  | _ => false
  end.

Inductive xnum : Type :=
| XNaN
| XNegInf
| XPosInf
| XFin (m e : Z).

Definition xnum_of_float (f : spec_float) : xnum :=
  match f with
  | S754_zero _ => XFin 0 0
  | S754_infinity s => if s then XNegInf else XPosInf
  | S754_nan => XNaN
  | S754_finite s m e => XFin (if s then Z.neg m else Z.pos m) e
  end.

Definition int_of_bool (b : bool) : Z := if b then 1 else 0.

Definition xnum_of (v : value) : option xnum :=
  match v with
  | VBool b => Some (XFin (int_of_bool b) 0)
  | VInt z => Some (XFin z 0)
  | VFloat f => Some (xnum_of_float f)
  | _ => None
  end.

Definition fin_compare (m1 e1 m2 e2 : Z) : comparison :=
  let e := Z.min e1 e2 in
  Z.compare (m1 * 2 ^ (e1 - e)) (m2 * 2 ^ (e2 - e)).

(** [None] when one side is NaN (every comparison is then false). *)
Definition xnum_compare (x y : xnum) : option comparison :=
  match x, y with
  | XNaN, _ | _, XNaN => None
  | XNegInf, XNegInf => Some Eq
  | XNegInf, _ => Some Lt
  | _, XNegInf => Some Gt
  | XPosInf, XPosInf => Some Eq
  | XPosInf, _ => Some Gt
  | _, XPosInf => Some Lt
  | XFin m1 e1, XFin m2 e2 => Some (fin_compare m1 e1 m2 e2)
  end.

(** [a > b] and [a < b] where one side is known to be a number: the
    other side is a number too, or the comparison is a [TypeError]. *)
Definition num_gt (a b : value) : result bool :=
  match xnum_of a, xnum_of b with
  | Some x, Some y =>
      Ok match xnum_compare x y with Some Gt => true | _ => false end
  | _, _ => Raise TypeError
  end.

Definition num_lt (a b : value) : result bool :=
  match xnum_of a, xnum_of b with
  | Some x, Some y =>
      Ok match xnum_compare x y with Some Lt => true | _ => false end
  | _, _ => Raise TypeError
  end.

(** [max(a, b)] keeps [a] unless [b > a]; [min(a, b)] keeps [a] unless
    [b < a]. *)
Definition py_max (a b : value) : result value :=
  gt <- num_gt b a ;; Ok (if gt then b else a).

Definition py_min (a b : value) : result value :=
  lt <- num_lt b a ;; Ok (if lt then b else a).

(** [float(z)]: round to nearest even, [OverflowError] when out of range. *)
Definition float_of_int (z : Z) : result spec_float :=
  match binary_normalize prec emax z 0 false with
  | S754_infinity _ => Raise OverflowError
  | f => Ok f
  end.

Definition float_add (x y : spec_float) : spec_float := SFadd prec emax x y.

(** [a + b]. *)
Definition py_add (a b : value) : result value :=
  match a, b with
  | VBool x, VBool y => Ok (VInt (int_of_bool x + int_of_bool y))
  | VBool x, VInt y => Ok (VInt (int_of_bool x + y))
  | VInt x, VBool y => Ok (VInt (x + int_of_bool y))
  | VInt x, VInt y => Ok (VInt (x + y))
  | VFloat x, VFloat y => Ok (VFloat (float_add x y))
  | VBool x, VFloat y =>
      fx <- float_of_int (int_of_bool x) ;; Ok (VFloat (float_add fx y))
  | VInt x, VFloat y =>
      fx <- float_of_int x ;; Ok (VFloat (float_add fx y))
  | VFloat x, VBool y =>
      fy <- float_of_int (int_of_bool y) ;; Ok (VFloat (float_add x fy))
  | VFloat x, VInt y =>
      fy <- float_of_int y ;; Ok (VFloat (float_add x fy))
  | VStr x, VStr y => Ok (VStr (String.append x y))
  | VList x, VList y => Ok (VList (x ++ y))
  | _, _ => Raise TypeError
  end.

(** *** Sets

    [set(xs)] needs every element hashable ([list] and [dict] are not)
    and keeps the first of the elements that compare equal.  Equality of
    set elements is [==]: numbers by value across [bool], [int] and
    [float], strings by content; two instruction objects are taken to be
    distinct objects. *)

Definition hashable (v : value) : bool :=
  match v with
  | VList _ | VDict _ => false
  | _ => true
  end.

Definition py_eq (a b : value) : bool :=
  match a, b with
  | VNone, VNone => true
  | VStr x, VStr y => String.eqb x y
  | _, _ =>
      match xnum_of a, xnum_of b with
      | Some x, Some y =>
          match xnum_compare x y with Some Eq => true | _ => false end
      | _, _ => false
      end
  end.

Definition py_in (x : value) (s : list value) : bool := existsb (py_eq x) s.

Fixpoint set_add_all (xs seen : list value) : list value :=
  match xs with
  | [] => seen
  | x :: rest =>
      if py_in x seen then set_add_all rest seen
      else set_add_all rest (seen ++ [x])
  end.

(** Elements of an iterable: a list yields its items, a string its
    characters, a dict its keys; nothing else is iterable. *)
Fixpoint chars (s : string) : list value :=
  match s with
  | EmptyString => []
  | String c rest => VStr (String c EmptyString) :: chars rest
  end.

Definition py_iter (v : value) : result (list value) :=
  match v with
  | VList l => Ok l
  | VStr s => Ok (chars s)
  | VDict d => Ok (map (fun kv => VStr (fst kv)) d)
  | _ => Raise TypeError
  end.

(** [set(v)], as the list of its distinct elements in insertion order. *)
Definition py_set (v : value) : result (list value) :=
  xs <- py_iter v ;;
  if forallb hashable xs then Ok (set_add_all xs []) else Raise TypeError.

(** [s.difference(t)]. *)
Definition set_difference (s t : list value) : list value :=
  filter (fun x => negb (py_in x t)) s.

(** *** Strings: [key.split(".")] and the join of the iterator *)

Definition is_dot (c : ascii) : bool := Ascii.eqb c "."%char.

Fixpoint split_dot (s : string) : list string :=
  match s with
  | EmptyString => [EmptyString]
  | String c rest =>
      if is_dot c then EmptyString :: split_dot rest
      else match split_dot rest with
           | h :: t => String c h :: t
           | [] => [String c EmptyString]
           end
  end.

Definition join_dot (segments : list string) : string :=
  String.concat "." segments.

(** ** Path resolver and document iterator (mockfirestore._helpers) *)

(** Modelled from the spec: [get_by_path] of [mockfirestore._helpers],
    which is imported by the module and not part of it.  It walks
    [data] by successive key lookups; an absent segment is a [KeyError]
    (the spec's PathNotFound), a segment looked up in a value that is not
    a mapping is a [TypeError] (the spec's TypeShapeError). *)
Fixpoint get_by_path (data : value) (path : list string) : result value :=
  match path with
  | [] => Ok data
  | k :: rest =>
      match data with
      | VDict d =>
          match dict_get k d with
          | Some v => get_by_path v rest
          | None => Raise KeyError
          end
      | _ => Raise TypeError
      end
  end.

(** Modelled from the spec: [set_by_path] of [mockfirestore._helpers].
    It creates an empty mapping at every missing intermediate segment,
    fails with a [TypeError] on an intermediate that is not a mapping and
    sets the leaf.  The in-place update of the nested dicts is returned
    as the new content of [data].  [key.split(".")] is never empty. *)
Fixpoint set_by_path (data : dict) (path : list string) (v : value)
  : result dict :=
  match path with
  | [] => Raise IndexError
  | [k] => Ok (dict_set k v data)
  | k :: rest =>
      match dict_get k data with
      | None =>
          sub <- set_by_path [] rest v ;; Ok (dict_set k (VDict sub) data)
      | Some (VDict d) =>
          sub <- set_by_path d rest v ;; Ok (dict_set k (VDict sub) data)
      | Some _ => Raise TypeError
      end
  end.

Section Iterator.

(** The loop that consumes the iterator: its state, the payload as the
    state holds it, and the loop body run on every yielded pair. *)
Variable S : Type.
Variable payload : S -> dict.
Variable body : string -> value -> S -> result S.

(** Modelled from the spec: [get_document_iterator] of
    [mockfirestore._helpers], a lazy depth-first generator of
    (dotted path, leaf) pairs, together with the [for] loop that draws
    from it.  The generator holds the dicts it walks by reference, so
    every step reads the payload as the loop body left it: the dict
    under iteration is found again by its chain of keys, [pos] is the
    index of the next entry and [used] the size the dict had when its
    iterator was made.  A dict whose size changed since then makes
    [next] raise [RuntimeError], as in CPython.  [None] is returned
    when [fuel] runs out. *)
Fixpoint get_document_iterator (fuel : nat) (chain : list string)
    (pos used : nat) (st : S) : option (result S) :=
  match fuel with
  | O => None
  | Datatypes.S fuel' =>
      match get_by_path (VDict (payload st)) chain with
      | Ok (VDict d) =>
          if negb (Nat.eqb (List.length d) used) then Some (Raise RuntimeError)
          else
            match nth_error d pos with
            | None => Some (Ok st)
            | Some (k, VDict sub) =>
                match get_document_iterator fuel' (chain ++ [k]) 0
                        (List.length sub) st with
                | Some (Ok st') =>
                    get_document_iterator fuel' chain (Datatypes.S pos) used st'
                | stop => stop
                end
            | Some (k, v) =>
                match body (join_dot (chain ++ [k])) v st with
                | Ok st' =>
                    get_document_iterator fuel' chain (Datatypes.S pos) used st'
                | Raise e => Some (Raise e)
                end
            end
      | _ => None
      end
  end.

End Iterator.

Arguments get_document_iterator {S} payload body fuel chain pos used st.

(** ** The transforms *)

(** [_ValueList.__init__]: the operand of ArrayUnion and ArrayRemove.
    Tuples are not among the values of the model, so the operand is a
    list or is refused. *)
Definition _ValueList_init (values : value) : result (list value) :=
  match values with
  | VList l =>
      if Nat.eqb (List.length l) 0 then Raise ValueError else Ok l
  | _ => Raise ValueError
  end.

(** [_NumericValue.__init__]: the operand of Increment, Maximum, Minimum. *)
Definition _NumericValue_init (v : value) : result value :=
  if isinstance_int_float v then Ok v else Raise ValueError.

Definition ArrayUnion_init (values : value) : result value :=
  l <- _ValueList_init values ;; Ok (ArrayUnion l).

Definition ArrayRemove_init (values : value) : result value :=
  l <- _ValueList_init values ;; Ok (ArrayRemove l).

Definition Increment_init (v : value) : result value :=
  n <- _NumericValue_init v ;; Ok (Increment n).

Definition Maximum_init (v : value) : result value :=
  n <- _NumericValue_init v ;; Ok (Maximum n).

Definition Minimum_init (v : value) : result value :=
  n <- _NumericValue_init v ;; Ok (Minimum n).

Definition isinstance_Transform (v : value) : bool :=
  match v with
  | ArrayUnion _ | ArrayRemove _ | Increment _ | Maximum _ | Minimum _ => true
  | _ => false
  end.

Section Transforms.

(** The order in which [list(s)] enumerates a set depends on hash
    values and on the history of the table; it is left open. *)
Variable set_order : list value -> list value.

Definition ArrayUnion_call (values : list value) (document : dict)
    (path : list string) : result value :=
  item <- except_TypeError_KeyError
            (get_by_path (VDict document) path) (VList []) ;;
  py_add item (VList values).

Definition ArrayRemove_call (values : list value) (document : dict)
    (path : list string) : result value :=
  item <- except_TypeError_KeyError
            (get_by_path (VDict document) path) (VList []) ;;
  s <- py_set item ;;
  t <- py_set (VList values) ;;
  Ok (VList (set_order (set_difference s t))).

Definition Increment_call (v : value) (document : dict)
    (path : list string) : result value :=
  item <- except_TypeError_KeyError
            (get_by_path (VDict document) path) (VInt 0) ;;
  py_add item v.

Definition Maximum_call (v : value) (document : dict)
    (path : list string) : result value :=
  found <- except_TypeError_KeyError
             (item <- get_by_path (VDict document) path ;; Ok (Some item))
             None ;;
  match found with
  | Some item =>
      if isinstance_int_float item then py_max item v else Ok v
  | None => Ok v
  end.

Definition Minimum_call (v : value) (document : dict)
    (path : list string) : result value :=
  found <- except_TypeError_KeyError
             (item <- get_by_path (VDict document) path ;; Ok (Some item))
             None ;;
  match found with
  | Some item =>
      if isinstance_int_float item then py_min item v else Ok v
  | None => Ok v
  end.

(** [value(document, path)] for an instance of [_Transform]. *)
Definition call (v : value) (document : dict) (path : list string)
  : result value :=
  match v with
  | ArrayUnion values => ArrayUnion_call values document path
  | ArrayRemove values => ArrayRemove_call values document path
  | Increment n => Increment_call n document path
  | Maximum n => Maximum_call n document path
  | Minimum n => Minimum_call n document path
  | _ => Raise TypeError
  end.

(** *** [_apply_transformations] *)

Record loop_state : Type := mk_state {
  data : dict;
  increments : dict;
  arr_unions : dict
}.

(** The body of the [for] loop.  The class-name test selects the
    objects whose class is called Increment or ArrayUnion; among the
    values of this model these are the two constructors. *)
Definition loop_body (document : dict) (key : string) (v : value)
    (st : loop_state) : result loop_state :=
  let path := split_dot key in
  st1 <- (if isinstance_Transform v then
            nv <- call v document path ;;
            d <- set_by_path (data st) path nv ;;
            Ok (mk_state d (increments st) (arr_unions st))
          else Ok st) ;;
  match v with
  | Increment n =>
      Ok (mk_state (data st1) (dict_set key n (increments st1))
            (arr_unions st1))
  | ArrayUnion values =>
      Ok (mk_state (data st1) (increments st1)
            (dict_set key (VList values) (arr_unions st1)))
  | _ => Ok st1
  end.

Fixpoint _update_data_with_firestore_transforms (document : dict)
    (new_values : dict) (default : value) (data : dict) : result dict :=
  match new_values with
  | [] => Ok data
  | (key, v) :: rest =>
      let path := split_dot key in
      item <- except_TypeError_KeyError
                (get_by_path (VDict document) path) default ;;
      s <- py_add item v ;;
      data' <- set_by_path data path s ;;
      _update_data_with_firestore_transforms document rest default data'
  end.

(** The first pass: the loop over the lazily iterated payload. *)
Definition first_pass (fuel : nat) (document data0 : dict)
  : option (result loop_state) :=
  get_document_iterator data (loop_body document) fuel [] 0
    (List.length data0) (mk_state data0 [] []).

(** The whole function; the result is the document and the payload as
    the call leaves them. *)
Definition _apply_transformations (fuel : nat) (document data0 : dict)
  : option (result (dict * dict)) :=
  match first_pass fuel document data0 with
  | None => None
  | Some (Raise e) => Some (Raise e)
  | Some (Ok st) =>
      Some (d1 <- _update_data_with_firestore_transforms document
                    (increments st) (VInt 0) (data st) ;;
            d2 <- _update_data_with_firestore_transforms document
                    (arr_unions st) (VList []) d1 ;;
            Ok (dict_update document d2, d2))
  end.

End Transforms.

Definition id_order (l : list value) : list value := l.

(** ** Vocabulary of the statements *)

Definition int_value (v : value) : option Z :=
  match v with
  | VBool b => Some (int_of_bool b)
  | VInt z => Some z
  | _ => None
  end.

Definition is_nan (v : value) : bool :=
  match xnum_of v with
  | Some XNaN => true
  | _ => false
  end.

(** What [py_eq] decides. *)
Inductive same_elem : value -> value -> Prop :=
| same_none : same_elem VNone VNone
| same_str s : same_elem (VStr s) (VStr s)
| same_num a b x y :
    xnum_of a = Some x -> xnum_of b = Some y ->
    xnum_compare x y = Some Eq -> same_elem a b.

Definition count (x : value) (s : list value) : nat :=
  List.length (filter (py_eq x) s).

Fixpoint dot_free (s : string) : bool :=
  match s with
  | EmptyString => true
  | String c rest => negb (is_dot c) && dot_free rest
  end.

(** The payload [T] with the dict found along [chain] replaced by [d']. *)
Fixpoint put_at (T : dict) (chain : list string) (d' : dict) : dict :=
  match chain with
  | [] => d'
  | k :: rest =>
      match dict_get k T with
      | Some (VDict sub) => dict_set k (VDict (put_at sub rest d')) T
      | _ => T
      end
  end.

Fixpoint distinct (l : list string) : bool :=
  match l with
  | [] => true
  | k :: rest => negb (existsb (String.eqb k) rest) && distinct rest
  end.

(** A payload as a Python dict has it, keys unique at every level, and
    with no dot in any key. *)
Fixpoint payload_ok (v : value) : bool :=
  match v with
  | VDict d =>
      distinct (map fst d) &&
      (fix entries_ok (l : list (string * value)) : bool :=
         match l with
         | [] => true
         | (k, x) :: rest => dot_free k && payload_ok x && entries_ok rest
         end) d
  | _ => true
  end.

(** Number of steps of the iteration over a payload. *)
Fixpoint weight (v : value) : nat :=
  match v with
  | VDict d =>
      S ((fix entries_weight (l : list (string * value)) : nat :=
            match l with
            | [] => O
            | (_, x) :: rest => (S (weight x) + entries_weight rest)%nat
            end) d)
  | _ => O
  end.

Definition is_dict (v : value) : bool :=
  match v with
  | VDict _ => true
  | _ => false
  end.

(** The value the second pass computes for an operand recorded at [path]. *)
Definition second_value (document : dict) (default : value)
    (path : list string) (op : value) : result value :=
  item <- except_TypeError_KeyError (get_by_path (VDict document) path) default ;;
  py_add item op.

(** Every operand of [new] that is not in [old] was recorded for a leaf
    below [chain], under one of the entries of [todo], and that leaf now
    holds the value the second pass computes for it. *)
Definition recorded (document : dict) (default : value) (chain : list string)
    (todo : dict) (new old : dict) : Prop :=
  forall key op, In (key, op) new ->
    In (key, op) old \/
    exists k rel val,
      key = join_dot (chain ++ k :: rel) /\
      In k (keys todo) /\
      forallb dot_free (k :: rel) = true /\
      second_value document default (chain ++ k :: rel) op = Ok val /\
      get_by_path (VDict todo) (k :: rel) = Ok val.

(** The single-pass engine the spec compares with: the first pass
    followed by [document.update(data)], without the two calls of
    [_update_data_with_firestore_transforms]. *)
Definition single_pass (set_order : list value -> list value) (fuel : nat)
    (document data0 : dict) : option (result (dict * dict)) :=
  match first_pass set_order fuel document data0 with
  | None => None
  | Some (Raise e) => Some (Raise e)
  | Some (Ok st) => Some (Ok (dict_update document (data st), data st))
  end.

(** A payload in which a nested key and a dotted key address the same
    path. *)
Definition shared_path_payload : dict :=
  [("a", VDict [("b", ArrayUnion [VInt 1])]); ("a.b", Increment (VInt 5))].

(** A payload as a Python dict has it, keys unique at every level, with
    no instruction among its leaves; a list is a leaf, whatever it holds. *)
Fixpoint plain (v : value) : bool :=
  match v with
  | VDict d =>
      distinct (map fst d) &&
      (fix entries_plain (l : list (string * value)) : bool :=
         match l with
         | [] => true
         | (_, x) :: rest => plain x && entries_plain rest
         end) d
  | ArrayUnion _ | ArrayRemove _ | Increment _ | Maximum _ | Minimum _ => false
  | _ => true
  end.

(** What the loop body records for the pair [(key, v)]. *)
Definition increments_of (key : string) (v : value) : dict :=
  match v with
  | Increment n => [(key, n)]
  | _ => []
  end.

Definition arr_unions_of (key : string) (v : value) : dict :=
  match v with
  | ArrayUnion values => [(key, VList values)]
  | _ => []
  end.

Definition is_list (v : value) : bool :=
  match v with
  | VList _ => true
  | _ => false
  end.

Definition iterable (v : value) : bool :=
  match v with
  | VList _ | VStr _ | VDict _ => true
  | _ => false
  end.

(** * Properties *)

(** ** Reading a path *)

Lemma get_by_path_raises (data : value) (path : list string) (e : exn) :
  get_by_path data path = Raise e -> e = KeyError \/ e = TypeError.
Proof.
  revert data; induction path as [|k rest IH]; intros data H; simpl in H.
  - discriminate.
  - destruct data; try (injection H as <-; now right).
    destruct (dict_get k d) as [v|].
    + now apply IH with v.
    + injection H as <-; now left.
Qed.

Lemma except_of_raise (A : Type) (data : value) (path : list string)
    (e : exn) (dflt : A) (f : value -> A) :
  get_by_path data path = Raise e ->
  except_TypeError_KeyError (x <- get_by_path data path ;; Ok (f x)) dflt
  = Ok dflt.
Proof.
  intros H; rewrite H; simpl.
  destruct (get_by_path_raises _ _ _ H) as [-> | ->]; reflexivity.
Qed.

Lemma except_get_raise (data : value) (path : list string) (e : exn)
    (dflt : value) :
  get_by_path data path = Raise e ->
  except_TypeError_KeyError (get_by_path data path) dflt = Ok dflt.
Proof.
  intros H; rewrite H.
  destruct (get_by_path_raises _ _ _ H) as [-> | ->]; reflexivity.
Qed.

(** ** Numbers *)

Lemma fin_compare_refl (m e : Z) : fin_compare m e m e = Eq.
Proof. unfold fin_compare; apply Z.compare_refl. Qed.

Lemma fin_compare_antisym (m1 e1 m2 e2 : Z) :
  fin_compare m2 e2 m1 e1 = CompOpp (fin_compare m1 e1 m2 e2).
Proof.
  unfold fin_compare; rewrite (Z.min_comm e2 e1); apply Z.compare_antisym.
Qed.

Lemma xnum_compare_refl (x : xnum) :
  x <> XNaN -> xnum_compare x x = Some Eq.
Proof.
  destruct x; simpl; try congruence.
  intros _; now rewrite fin_compare_refl.
Qed.

Lemma xnum_compare_antisym (x y : xnum) :
  xnum_compare y x = option_map CompOpp (xnum_compare x y).
Proof.
  destruct x, y; simpl; try reflexivity.
  now rewrite fin_compare_antisym.
Qed.

Lemma float_add_zero_l (f : spec_float) :
  xnum_of_float (float_add (S754_zero false) f) = xnum_of_float f.
Proof. destruct f as [[|]| | |]; reflexivity. Qed.

(** [0 + n] denotes the number [n], and has the type of [n] up to [bool],
    which is promoted to [int]. *)
Lemma py_add_zero_l (n : value) :
  isinstance_int_float n = true ->
  exists r, py_add (VInt 0) n = Ok r /\ xnum_of r = xnum_of n /\
            isinstance_float r = isinstance_float n /\
            isinstance_int_float r = true /\
            (forall z, n = VInt z -> r = VInt z).
Proof.
  destruct n; try discriminate; intros _.
  - eexists; repeat split; intros; discriminate.
  - eexists; repeat split. now intros z0 [= ->].
  - exists (VFloat (float_add (S754_zero false) f)); repeat split.
    + unfold xnum_of. now rewrite float_add_zero_l.
    + intros; discriminate.
Qed.

Lemma py_eq_of_xnum (a b : value) :
  isinstance_int_float a = true -> isinstance_int_float b = true ->
  xnum_of a = xnum_of b -> is_nan b = false -> py_eq a b = true.
Proof.
  intros Ha Hb E N. unfold is_nan in N.
  assert (C : exists x, xnum_of a = Some x /\ xnum_of b = Some x /\ x <> XNaN).
  { destruct (xnum_of b) as [x|] eqn:Eb.
    - exists x; repeat split; auto. intros ->; discriminate.
    - destruct b; discriminate. }
  destruct C as (x & Ea & Eb & Hx).
  assert (K : match xnum_of a, xnum_of b with
              | Some x, Some y =>
                  match xnum_compare x y with Some Eq => true | _ => false end
              | _, _ => false
              end = true).
  { rewrite Ea, Eb, xnum_compare_refl by assumption; reflexivity. }
  destruct a, b; try discriminate; exact K.
Qed.

Lemma num_gt_numbers (a b : value) :
  isinstance_int_float a = true -> isinstance_int_float b = true ->
  exists x y, xnum_of a = Some x /\ xnum_of b = Some y /\
    num_gt a b = Ok match xnum_compare x y with Some Gt => true | _ => false end /\
    num_lt a b = Ok match xnum_compare x y with Some Lt => true | _ => false end.
Proof.
  intros Ha Hb.
  destruct a; try discriminate; destruct b; try discriminate;
    eexists; eexists; repeat split.
Qed.

Lemma num_gt_irrefl (a : value) :
  isinstance_int_float a = true -> num_gt a a = Ok false /\ num_lt a a = Ok false.
Proof.
  intros Ha. destruct (num_gt_numbers a a Ha Ha) as (x & y & Ex & Ey & -> & ->).
  rewrite Ex in Ey; injection Ey as <-.
  destruct x; simpl; try (split; reflexivity).
  now rewrite fin_compare_refl.
Qed.

Lemma num_gt_asym (a b : value) :
  isinstance_int_float a = true -> isinstance_int_float b = true ->
  (num_gt a b = Ok true -> num_gt b a = Ok false) /\
  (num_lt a b = Ok true -> num_lt b a = Ok false).
Proof.
  intros Ha Hb.
  destruct (num_gt_numbers a b Ha Hb) as (x & y & Ex & Ey & -> & ->).
  destruct (num_gt_numbers b a Hb Ha) as (y' & x' & Ey' & Ex' & -> & ->).
  rewrite Ex in Ex'; injection Ex' as <-. rewrite Ey in Ey'; injection Ey' as <-.
  rewrite (xnum_compare_antisym x y).
  destruct (xnum_compare x y) as [[| |]|]; simpl; split; congruence.
Qed.

Lemma num_gt_int (x y : Z) :
  num_gt (VInt x) (VInt y) = Ok (y <? x) /\ num_lt (VInt x) (VInt y) = Ok (x <? y).
Proof.
  unfold num_gt, num_lt; simpl; unfold fin_compare; simpl.
  rewrite !Z.mul_1_r, Z.ltb_antisym, Z.leb_compare. unfold Z.ltb.
  destruct (x ?= y); split; reflexivity.
Qed.

(** ** The five variants *)

(** C1. Increment(n) on a path that cannot be read returns [0 + n], which
    is the number [n] (and [n] itself for an [int]); on a path that holds
    a number [c] it returns Python's [c + n]: the integer sum when both
    are integers, the binary64 sum when a float is involved, and the
    result is a float exactly when [c] or [n] is one. *)
Theorem Increment_call_spec (n : value) (document : dict)
    (path : list string) :
  isinstance_int_float n = true ->
  (forall e, get_by_path (VDict document) path = Raise e ->
     exists r, Increment_call n document path = Ok r /\
       xnum_of r = xnum_of n /\
       (is_nan n = false -> py_eq r n = true) /\
       isinstance_float r = isinstance_float n /\
       (forall z, n = VInt z -> r = VInt z)) /\
  (forall c, get_by_path (VDict document) path = Ok c ->
     isinstance_int_float c = true ->
     Increment_call n document path = py_add c n /\
     (forall zc zn, int_value c = Some zc -> int_value n = Some zn ->
        py_add c n = Ok (VInt (zc + zn))) /\
     (forall fc fn, c = VFloat fc -> n = VFloat fn ->
        py_add c n = Ok (VFloat (float_add fc fn))) /\
     (forall zc fn, int_value c = Some zc -> n = VFloat fn ->
        py_add c n = (fc <- float_of_int zc ;; Ok (VFloat (float_add fc fn)))) /\
     (forall fc zn, c = VFloat fc -> int_value n = Some zn ->
        py_add c n = (fn <- float_of_int zn ;; Ok (VFloat (float_add fc fn)))) /\
     (forall r, py_add c n = Ok r ->
        isinstance_int_float r = true /\
        (isinstance_float r = true <->
         isinstance_float c = true \/ isinstance_float n = true))).
Proof.
  intros Hn; split.
  - intros e He. unfold Increment_call.
    rewrite (except_get_raise _ _ _ (VInt 0) He); simpl bind.
    destruct (py_add_zero_l n Hn) as (r & Er & Ex & Ef & Hr & Ez).
    exists r; repeat split; auto.
    intros Hnan; apply py_eq_of_xnum; auto.
  - intros c Hc Hnum. unfold Increment_call. rewrite Hc; simpl bind.
    split; [reflexivity|].
    split; [|split; [|split; [|split]]].
    + intros zc zn Ec En.
      destruct c; try discriminate; destruct n; try discriminate;
        simpl in Ec, En; injection Ec as <-; injection En as <-; reflexivity.
    + intros fc fn -> ->; reflexivity.
    + intros zc fn Ec ->.
      destruct c; try discriminate; simpl in Ec; injection Ec as <-; reflexivity.
    + intros fc zn -> En.
      destruct n; try discriminate; simpl in En; injection En as <-; reflexivity.
    + intros r Hr.
      destruct c; try discriminate; destruct n; try discriminate;
        cbn [py_add] in Hr;
        try (injection Hr as <-; split; [reflexivity|];
             split; [discriminate | intros [?|?]; discriminate]);
        try (injection Hr as <-; split; [reflexivity|];
             split; [intros _; (now left) || (now right) | reflexivity]);
        try (match type of Hr with
             | (_ <- ?f ;; _) = _ => destruct f; simpl in Hr; [|discriminate]
             end;
             injection Hr as <-; split; [reflexivity|];
             split; [intros _; (now left) || (now right) | reflexivity]).
Qed.

Lemma Increment_call_spec_witness :
  Increment_call (VInt 2) [("count", VInt 1)] ["count"] = Ok (VInt 3).
Proof.
  destruct (Increment_call_spec (VInt 2) [("count", VInt 1)] ["count"] eq_refl)
    as [_ H].
  destruct (H (VInt 1) eq_refl eq_refl) as (E & Hint & _).
  rewrite E. exact (Hint 1 2 eq_refl eq_refl).
Defined.

(** C2. ArrayUnion(values) on a path that holds the list [current]
    returns [current ++ values], whose length is the sum of the two
    lengths whatever the elements are; on a path that cannot be read it
    returns [values]. *)
Theorem ArrayUnion_call_spec (values : list value) (document : dict)
    (path : list string) :
  (forall current, get_by_path (VDict document) path = Ok (VList current) ->
     ArrayUnion_call values document path = Ok (VList (current ++ values)) /\
     List.length (current ++ values)
     = (List.length current + List.length values)%nat) /\
  (forall e, get_by_path (VDict document) path = Raise e ->
     ArrayUnion_call values document path = Ok (VList values)).
Proof.
  split.
  - intros current H. unfold ArrayUnion_call. rewrite H; simpl.
    split; [reflexivity | apply length_app].
  - intros e H. unfold ArrayUnion_call.
    now rewrite (except_get_raise _ _ _ (VList []) H).
Qed.

Lemma ArrayUnion_call_spec_witness :
  ArrayUnion_call [VStr "a"] [("tags", VList [VStr "a"; VStr "b"])] ["tags"]
  = Ok (VList [VStr "a"; VStr "b"; VStr "a"]).
Proof.
  exact (proj1 (proj1 (ArrayUnion_call_spec [VStr "a"]
                         [("tags", VList [VStr "a"; VStr "b"])] ["tags"])
                  [VStr "a"; VStr "b"] eq_refl)).
Defined.

Lemma found_of_ok (data : value) (path : list string) (c : value) :
  get_by_path data path = Ok c ->
  except_TypeError_KeyError
    (item <- get_by_path data path ;; Ok (Some item)) None = Ok (Some c).
Proof. intros ->; reflexivity. Qed.

(** C4. On a path that holds a number [c], Maximum(n) returns [max(c, n)]
    and Minimum(n) returns [min(c, n)]: one of the two operands, which
    neither operand exceeds (resp. undercuts), [Z.max] and [Z.min] on
    integers.  On a path that cannot be read, or that holds a value that
    is not a number, both return [n]. *)
Theorem Maximum_Minimum_call_spec (n : value) (document : dict)
    (path : list string) :
  isinstance_int_float n = true ->
  (forall c, get_by_path (VDict document) path = Ok c ->
     isinstance_int_float c = true ->
     (exists r, Maximum_call n document path = Ok r /\ py_max c n = Ok r /\
        (r = c \/ r = n) /\ num_gt c r = Ok false /\ num_gt n r = Ok false) /\
     (exists r, Minimum_call n document path = Ok r /\ py_min c n = Ok r /\
        (r = c \/ r = n) /\ num_lt c r = Ok false /\ num_lt n r = Ok false) /\
     (forall zc zn, c = VInt zc -> n = VInt zn ->
        Maximum_call n document path = Ok (VInt (Z.max zc zn)) /\
        Minimum_call n document path = Ok (VInt (Z.min zc zn)))) /\
  (forall c, get_by_path (VDict document) path = Ok c ->
     isinstance_int_float c = false ->
     Maximum_call n document path = Ok n /\
     Minimum_call n document path = Ok n) /\
  (forall e, get_by_path (VDict document) path = Raise e ->
     Maximum_call n document path = Ok n /\
     Minimum_call n document path = Ok n).
Proof.
  intros Hn; split; [|split].
  - intros c Hc Hnum. unfold Maximum_call, Minimum_call.
    rewrite (found_of_ok _ _ _ Hc); simpl bind; rewrite Hnum.
    destruct (num_gt_irrefl n Hn) as [Gn Ln].
    destruct (num_gt_irrefl c Hnum) as [Gc Lc].
    destruct (num_gt_asym n c Hn Hnum) as [Gnc Lnc].
    split; [|split].
    + unfold py_max.
      destruct (num_gt_numbers n c Hn Hnum) as (x & y & _ & _ & E & _).
      rewrite E in *; simpl bind.
      destruct (match xnum_compare x y with Some Gt => true | _ => false end).
      * exists n; repeat split; auto.
      * exists c; repeat split; auto.
    + unfold py_min.
      destruct (num_gt_numbers n c Hn Hnum) as (x & y & _ & _ & _ & E).
      rewrite E in *; simpl bind.
      destruct (match xnum_compare x y with Some Lt => true | _ => false end).
      * exists n; repeat split; auto.
      * exists c; repeat split; auto.
    + intros zc zn -> ->. unfold py_max, py_min.
      destruct (num_gt_int zn zc) as [-> ->]; simpl bind.
      split.
      * destruct (Z.ltb_spec zc zn); do 2 f_equal; lia.
      * destruct (Z.ltb_spec zn zc); do 2 f_equal; lia.
  - intros c Hc Hnum. unfold Maximum_call, Minimum_call.
    rewrite (found_of_ok _ _ _ Hc); simpl bind; rewrite Hnum. now split.
  - intros e He. unfold Maximum_call, Minimum_call.
    rewrite (except_of_raise _ _ _ _ None Some He). now split.
Qed.

Lemma Maximum_Minimum_call_spec_witness :
  Maximum_call (VInt 5) [("n", VInt 7)] ["n"] = Ok (VInt 7) /\
  Minimum_call (VInt 5) [("n", VInt 7)] ["n"] = Ok (VInt 5) /\
  Maximum_call (VInt 5) [("n", VStr "x")] ["n"] = Ok (VInt 5) /\
  Maximum_call (VInt 5) [] ["n"] = Ok (VInt 5).
Proof.
  split; [|split; [|split]].
  - exact (proj1 (proj2 (proj2 (proj1
             (Maximum_Minimum_call_spec (VInt 5) [("n", VInt 7)] ["n"] eq_refl)
             (VInt 7) eq_refl eq_refl)) 7 5 eq_refl eq_refl)).
  - exact (proj2 (proj2 (proj2 (proj1
             (Maximum_Minimum_call_spec (VInt 5) [("n", VInt 7)] ["n"] eq_refl)
             (VInt 7) eq_refl eq_refl)) 7 5 eq_refl eq_refl)).
  - exact (proj1 (proj1 (proj2
             (Maximum_Minimum_call_spec (VInt 5) [("n", VStr "x")] ["n"] eq_refl))
             (VStr "x") eq_refl eq_refl)).
  - exact (proj1 (proj2 (proj2
             (Maximum_Minimum_call_spec (VInt 5) [] ["n"] eq_refl))
             KeyError eq_refl)).
Defined.

(** C7. An empty list is refused by the constructors of ArrayUnion and
    ArrayRemove, and an operand that is neither an [int] nor a [float] is
    refused by those of Increment, Maximum and Minimum: each raises
    [ValueError] and builds no instruction. *)
Theorem init_rejects_invalid_operand :
  ArrayUnion_init (VList []) = Raise ValueError /\
  ArrayRemove_init (VList []) = Raise ValueError /\
  (forall v, isinstance_int_float v = false ->
     Increment_init v = Raise ValueError /\
     Maximum_init v = Raise ValueError /\
     Minimum_init v = Raise ValueError).
Proof.
  split; [reflexivity | split; [reflexivity|]].
  intros v Hv.
  unfold Increment_init, Maximum_init, Minimum_init, _NumericValue_init.
  rewrite Hv; repeat split.
Qed.

Lemma init_rejects_invalid_operand_witness :
  Increment_init (VStr "1") = Raise ValueError /\
  Maximum_init VNone = Raise ValueError /\
  Minimum_init (VList [VInt 1]) = Raise ValueError.
Proof.
  split; [|split].
  - exact (proj1 (proj2 (proj2 init_rejects_invalid_operand)
                    (VStr "1") eq_refl)).
  - exact (proj1 (proj2 (proj2 (proj2 init_rejects_invalid_operand)
                    VNone eq_refl))).
  - exact (proj2 (proj2 (proj2 (proj2 init_rejects_invalid_operand)
                    (VList [VInt 1]) eq_refl))).
Defined.

(** The constructors accept every other operand. *)
Lemma init_accepts_valid_operand :
  (forall x l, ArrayUnion_init (VList (x :: l)) = Ok (ArrayUnion (x :: l)) /\
               ArrayRemove_init (VList (x :: l)) = Ok (ArrayRemove (x :: l))) /\
  (forall v, isinstance_int_float v = true ->
     Increment_init v = Ok (Increment v) /\
     Maximum_init v = Ok (Maximum v) /\
     Minimum_init v = Ok (Minimum v)).
Proof.
  split; [now split|].
  intros v Hv.
  unfold Increment_init, Maximum_init, Minimum_init, _NumericValue_init.
  rewrite Hv; repeat split.
Qed.

(** ** Equality of set elements *)

Lemma fin_compare_shift (m1 e1 m2 e2 k : Z) :
  k <= e1 -> k <= e2 ->
  fin_compare m1 e1 m2 e2 = (m1 * 2 ^ (e1 - k) ?= m2 * 2 ^ (e2 - k)).
Proof.
  intros H1 H2. unfold fin_compare.
  set (e := Z.min e1 e2).
  assert (He1 : e <= e1) by (subst e; lia).
  assert (He2 : e <= e2) by (subst e; lia).
  assert (Hk : k <= e) by (subst e; lia).
  replace (e1 - k) with ((e1 - e) + (e - k)) by lia.
  replace (e2 - k) with ((e2 - e) + (e - k)) by lia.
  rewrite !Z.pow_add_r by lia.
  rewrite !Z.mul_assoc.
  apply Zmult_compare_compat_r.
  apply Z.lt_gt, Z.pow_pos_nonneg; lia.
Qed.

Lemma fin_compare_eq_trans (m1 e1 m2 e2 m3 e3 : Z) :
  fin_compare m1 e1 m2 e2 = Eq -> fin_compare m2 e2 m3 e3 = Eq ->
  fin_compare m1 e1 m3 e3 = Eq.
Proof.
  set (k := Z.min e1 (Z.min e2 e3)).
  rewrite (fin_compare_shift m1 e1 m2 e2 k) by (subst k; lia).
  rewrite (fin_compare_shift m2 e2 m3 e3 k) by (subst k; lia).
  rewrite (fin_compare_shift m1 e1 m3 e3 k) by (subst k; lia).
  rewrite !Z.compare_eq_iff. congruence.
Qed.

Lemma xnum_compare_eq_sym (x y : xnum) :
  xnum_compare x y = Some Eq -> xnum_compare y x = Some Eq.
Proof. intros H; rewrite xnum_compare_antisym, H; reflexivity. Qed.

Lemma xnum_compare_eq_trans (x y z : xnum) :
  xnum_compare x y = Some Eq -> xnum_compare y z = Some Eq ->
  xnum_compare x z = Some Eq.
Proof.
  destruct x, y, z; simpl; try congruence.
  intros [= H1] [= H2]. f_equal. eapply fin_compare_eq_trans; eauto.
Qed.

Lemma py_eq_spec (a b : value) : py_eq a b = true <-> same_elem a b.
Proof.
  split.
  - intros H.
    destruct a, b; try (simpl in H; discriminate); try exact same_none.
    all: try (apply String.eqb_eq in H; subst; exact (same_str _)).
    all: eapply same_num; [reflexivity | reflexivity |];
      unfold py_eq in H; cbn [xnum_of] in H;
      destruct (xnum_compare _ _) as [[| |]|]; congruence.
  - intros H; destruct H as [ | s | a b x y Ha Hb Hc].
    + reflexivity.
    + simpl; apply String.eqb_refl.
    + destruct a; try discriminate; destruct b; try discriminate;
        cbn [xnum_of] in Ha, Hb; injection Ha as <-; injection Hb as <-;
        unfold py_eq; cbn [xnum_of]; now rewrite Hc.
Qed.

Lemma same_elem_sym (a b : value) : same_elem a b -> same_elem b a.
Proof.
  intros [ | s | a' b' x y Ha Hb Hc]; try constructor.
  eapply same_num; eauto using xnum_compare_eq_sym.
Qed.

Lemma same_elem_trans (a b c : value) :
  same_elem a b -> same_elem b c -> same_elem a c.
Proof.
  intros H1 H2; destruct H1 as [ | s | a b x y Ha Hb Hc].
  - exact H2.
  - exact H2.
  - inversion H2 as [ | s E1 E2 | b' c' y' z Hb' Hc' Hd]; subst.
    + discriminate.
    + discriminate.
    + rewrite Hb in Hb'; injection Hb' as <-.
      eapply same_num; eauto using xnum_compare_eq_trans.
Qed.

Lemma py_eq_sym (a b : value) : py_eq a b = py_eq b a.
Proof.
  destruct (py_eq a b) eqn:E1, (py_eq b a) eqn:E2; try reflexivity.
  - apply py_eq_spec, same_elem_sym, py_eq_spec in E1; congruence.
  - apply py_eq_spec, same_elem_sym, py_eq_spec in E2; congruence.
Qed.

Lemma py_eq_trans (a b c : value) :
  py_eq a b = true -> py_eq b c = true -> py_eq a c = true.
Proof.
  rewrite !py_eq_spec; apply same_elem_trans.
Qed.

(** Equal elements are members of the same sets. *)
Lemma py_in_eq (a b : value) (s : list value) :
  py_eq a b = true -> py_in a s = py_in b s.
Proof.
  intros H; unfold py_in; induction s as [|y s IH]; simpl; [reflexivity|].
  rewrite IH; f_equal.
  destruct (py_eq a y) eqn:E1, (py_eq b y) eqn:E2; try reflexivity.
  - rewrite py_eq_sym in H. now rewrite (py_eq_trans _ _ _ H E1) in E2.
  - now rewrite (py_eq_trans _ _ _ H E2) in E1.
Qed.

Lemma py_in_app (x : value) (s t : list value) :
  py_in x (s ++ t) = py_in x s || py_in x t.
Proof. unfold py_in; apply existsb_app. Qed.

Lemma count_app (x : value) (s t : list value) :
  count x (s ++ t) = (count x s + count x t)%nat.
Proof. unfold count; now rewrite filter_app, length_app. Qed.

Lemma count_0_not_in (x : value) (s : list value) :
  py_in x s = false -> count x s = 0%nat.
Proof.
  unfold py_in, count; induction s as [|y s IH]; simpl; [reflexivity|].
  destruct (py_eq x y); simpl; [discriminate | exact IH].
Qed.

Lemma count_pos_in (x : value) (s : list value) :
  py_in x s = true -> (1 <= count x s)%nat.
Proof.
  unfold py_in, count; induction s as [|y s IH]; simpl; [discriminate|].
  destruct (py_eq x y); simpl; [lia | exact IH].
Qed.

Lemma count_perm (x : value) (s t : list value) :
  Permutation s t -> count x s = count x t.
Proof.
  intros H; unfold count; induction H; simpl; try congruence.
  - destruct (py_eq x x0); simpl; congruence.
  - destruct (py_eq x y), (py_eq x x0); reflexivity.
Qed.

Lemma py_in_perm (x : value) (s t : list value) :
  Permutation s t -> py_in x s = py_in x t.
Proof.
  intros H; unfold py_in; induction H as [|y s t H IH|y z s|s t u H1 IH1 H2 IH2];
    simpl; try congruence.
  now rewrite !orb_assoc, (orb_comm (py_eq x y)).
Qed.

(** [set(xs)]: membership and absence of repetitions. *)
Lemma set_add_all_in (x : value) (xs seen : list value) :
  py_in x (set_add_all xs seen) = py_in x seen || py_in x xs.
Proof.
  revert seen; induction xs as [|y xs IH]; intros seen; simpl.
  - now rewrite orb_false_r.
  - destruct (py_in y seen) eqn:Hy; rewrite IH.
    + change (py_in x (y :: xs)) with (py_eq x y || py_in x xs).
      destruct (py_eq x y) eqn:E; [|reflexivity].
      rewrite (py_in_eq _ _ seen E), Hy; reflexivity.
    + rewrite py_in_app. unfold py_in at 2; simpl.
      change (py_in x (y :: xs)) with (py_eq x y || py_in x xs).
      now rewrite orb_false_r, orb_assoc.
Qed.

Lemma set_add_all_count (xs seen : list value) :
  (forall x, count x seen <= 1)%nat ->
  forall x, (count x (set_add_all xs seen) <= 1)%nat.
Proof.
  revert seen; induction xs as [|y xs IH]; intros seen H; simpl.
  - exact H.
  - destruct (py_in y seen) eqn:Hy; apply IH; [exact H|].
    intros x; rewrite count_app. unfold count at 2; simpl.
    destruct (py_eq x y) eqn:E; simpl.
    + rewrite count_0_not_in; [lia|].
      now rewrite (py_in_eq _ _ seen E).
    + specialize (H x); lia.
Qed.

Lemma set_add_all_incl (xs seen : list value) :
  incl (set_add_all xs seen) (seen ++ xs).
Proof.
  revert seen; induction xs as [|y xs IH]; intros seen; simpl.
  - rewrite app_nil_r; apply incl_refl.
  - destruct (py_in y seen).
    + intros z Hz; apply IH in Hz.
      apply in_app_or in Hz as [Hz|Hz]; apply in_or_app; [now left | right; now right].
    + intros z Hz; apply IH in Hz. rewrite <- app_assoc in Hz. exact Hz.
Qed.

Lemma set_difference_in (x : value) (s t : list value) :
  py_in x (set_difference s t) = py_in x s && negb (py_in x t).
Proof.
  unfold set_difference; induction s as [|y s IH]; simpl; [reflexivity|].
  change (py_in x (y :: s)) with (py_eq x y || py_in x s).
  destruct (py_in y t) eqn:Hy; simpl.
  - rewrite IH. destruct (py_eq x y) eqn:E; [|reflexivity].
    rewrite (py_in_eq _ _ t E), Hy; simpl.
    now rewrite andb_false_r.
  - change (py_in x (y :: filter (fun x0 => negb (py_in x0 t)) s))
      with (py_eq x y || py_in x (filter (fun x0 => negb (py_in x0 t)) s)).
    rewrite IH. destruct (py_eq x y) eqn:E; [|reflexivity].
    rewrite (py_in_eq _ _ t E), Hy; reflexivity.
Qed.

Lemma set_difference_count (x : value) (s t : list value) :
  (count x (set_difference s t) <= count x s)%nat.
Proof.
  unfold set_difference, count; induction s as [|y s IH]; simpl; [lia|].
  destruct (py_in y t); simpl; destruct (py_eq x y); simpl; lia.
Qed.

Lemma py_in_of_In (x : value) (s : list value) :
  In x s -> py_eq x x = true -> py_in x s = true.
Proof.
  intros H E; unfold py_in; apply existsb_exists; now exists x.
Qed.

Lemma rev_order_perm (l : list value) : Permutation (rev l) l.
Proof. apply Permutation_sym, Permutation_rev. Qed.

Lemma id_order_perm (l : list value) : Permutation (id_order l) l.
Proof. apply Permutation_refl. Qed.

Lemma ArrayRemove_call_list (set_order : list value -> list value)
    (values current : list value) (document : dict) (path : list string) :
  get_by_path (VDict document) path = Ok (VList current) ->
  forallb hashable current = true ->
  forallb hashable values = true ->
  ArrayRemove_call set_order values document path
  = Ok (VList (set_order (set_difference (set_add_all current [])
                            (set_add_all values [])))).
Proof.
  intros H Hc Hv. unfold ArrayRemove_call, py_set.
  rewrite H; simpl. now rewrite Hc, Hv.
Qed.

(** C3. ArrayRemove(values) on a path that holds a list of hashable
    elements returns a list whose members are those of the current list
    that are not members of [values]; every element of the result is
    taken from the current list; a path that cannot be read counts as the
    empty list; an element that is not hashable, in the current list or
    in [values], makes the call raise [TypeError]; and the order of the
    result is that of the set's enumeration, which may differ from the
    order of the current list. *)
Theorem ArrayRemove_call_spec (set_order : list value -> list value)
    (values : list value) (document : dict) (path : list string) :
  (forall l, Permutation (set_order l) l) ->
  (forall current,
     get_by_path (VDict document) path = Ok (VList current) ->
     forallb hashable current = true ->
     forallb hashable values = true ->
     exists res,
       ArrayRemove_call set_order values document path = Ok (VList res) /\
       (forall x, py_in x res = py_in x current && negb (py_in x values)) /\
       incl res current) /\
  (forall e, get_by_path (VDict document) path = Raise e ->
     forallb hashable values = true ->
     ArrayRemove_call set_order values document path = Ok (VList [])) /\
  (forall current,
     get_by_path (VDict document) path = Ok (VList current) ->
     forallb hashable current = false \/ forallb hashable values = false ->
     ArrayRemove_call set_order values document path = Raise TypeError) /\
  (exists order,
     (forall l, Permutation (order l) l) /\
     ArrayRemove_call order [VStr "y"]
       [("tags", VList [VStr "x"; VStr "y"; VStr "z"])] ["tags"]
     = Ok (VList [VStr "z"; VStr "x"])).
Proof.
  intros Hperm; split; [|split; [|split]].
  - intros current H Hc Hv.
    rewrite (ArrayRemove_call_list _ _ _ _ _ H Hc Hv).
    eexists; split; [reflexivity|]; split.
    + intros x. rewrite (py_in_perm x _ _ (Hperm _)).
      rewrite set_difference_in, !set_add_all_in; reflexivity.
    + intros x Hx.
      apply (Permutation_in _ (Hperm _)) in Hx.
      apply filter_In in Hx as [Hx _].
      now apply set_add_all_incl in Hx.
  - intros e H Hv. unfold ArrayRemove_call, py_set.
    rewrite (except_get_raise _ _ _ (VList []) H); simpl.
    rewrite Hv; simpl.
    now rewrite (Permutation_nil (Permutation_sym (Hperm []))).
  - intros current H Hbad. unfold ArrayRemove_call, py_set.
    rewrite H; simpl.
    destruct (forallb hashable current); [|reflexivity].
    destruct Hbad as [Hbad|Hbad]; [discriminate|]. now rewrite Hbad.
  - exists (@rev value); split; [apply rev_order_perm | reflexivity].
Qed.

Lemma ArrayRemove_call_spec_witness :
  exists res,
    ArrayRemove_call id_order [VStr "y"]
      [("tags", VList [VStr "x"; VStr "y"; VStr "z"])] ["tags"]
    = Ok (VList res) /\
    (forall x, py_in x res
               = py_in x [VStr "x"; VStr "y"; VStr "z"]
                 && negb (py_in x [VStr "y"])) /\
    incl res [VStr "x"; VStr "y"; VStr "z"].
Proof.
  exact (proj1 (ArrayRemove_call_spec id_order [VStr "y"]
                  [("tags", VList [VStr "x"; VStr "y"; VStr "z"])] ["tags"]
                  id_order_perm)
           [VStr "x"; VStr "y"; VStr "z"] eq_refl eq_refl eq_refl).
Defined.

(** C10. ArrayRemove collapses duplicates of the current list: no value
    occurs twice in the result, and an element of the current list that
    no operand matches occurs exactly once, however often it occurred
    before; ArrayRemove(["y"]) on ["x", "x", "y"] gives ["x"]. *)
Theorem ArrayRemove_call_collapses_duplicates
    (set_order : list value -> list value)
    (values current : list value) (document : dict) (path : list string) :
  (forall l, Permutation (set_order l) l) ->
  (get_by_path (VDict document) path = Ok (VList current) ->
   forallb hashable current = true ->
   forallb hashable values = true ->
   exists res,
     ArrayRemove_call set_order values document path = Ok (VList res) /\
     (forall x, count x res <= 1)%nat /\
     (forall x, In x current -> py_eq x x = true -> py_in x values = false ->
        count x res = 1%nat)) /\
  ArrayRemove_call set_order [VStr "y"]
    [("tags", VList [VStr "x"; VStr "x"; VStr "y"])] ["tags"]
  = Ok (VList [VStr "x"]).
Proof.
  intros Hperm; split.
  - intros H Hc Hv.
    rewrite (ArrayRemove_call_list _ _ _ _ _ H Hc Hv).
    eexists; split; [reflexivity|].
    assert (Hle : forall x,
      (count x (set_order (set_difference (set_add_all current [])
                             (set_add_all values []))) <= 1)%nat).
    { intros x. rewrite (count_perm x _ _ (Hperm _)).
      etransitivity; [apply set_difference_count|].
      apply set_add_all_count. intros y; unfold count; simpl; lia. }
    split; [exact Hle|].
    intros x Hin Hrefl Hout.
    assert (Hpos : (1 <= count x (set_order (set_difference
                      (set_add_all current []) (set_add_all values []))))%nat).
    { apply count_pos_in. rewrite (py_in_perm x _ _ (Hperm _)).
      rewrite set_difference_in, !set_add_all_in; simpl.
      rewrite (py_in_of_In x current Hin Hrefl), Hout; reflexivity. }
    specialize (Hle x); lia.
  - unfold ArrayRemove_call, py_set; simpl.
    unfold set_difference; simpl.
    now rewrite (Permutation_length_1_inv (Permutation_sym (Hperm [VStr "x"]))).
Qed.

Lemma ArrayRemove_call_collapses_duplicates_witness :
  exists res,
    ArrayRemove_call id_order [VInt 7]
      [("a", VList [VInt 1; VBool true; VInt 2; VInt 2])] ["a"]
    = Ok (VList res) /\
    (forall x, count x res <= 1)%nat /\
    (forall x, In x [VInt 1; VBool true; VInt 2; VInt 2] ->
       py_eq x x = true -> py_in x [VInt 7] = false -> count x res = 1%nat).
Proof.
  exact (proj1 (ArrayRemove_call_collapses_duplicates id_order [VInt 7]
                  [VInt 1; VBool true; VInt 2; VInt 2]
                  [("a", VList [VInt 1; VBool true; VInt 2; VInt 2])] ["a"]
                  id_order_perm) eq_refl eq_refl eq_refl).
Defined.

(** ** Dotted keys *)

Lemma split_dot_nonempty (s : string) : split_dot s <> [].
Proof.
  destruct s as [|c s]; simpl; [discriminate|].
  destruct (is_dot c); [discriminate|].
  destruct (split_dot s); discriminate.
Qed.

Lemma split_dot_dot_free (s : string) :
  dot_free s = true -> split_dot s = [s].
Proof.
  induction s as [|c s IH]; simpl; [reflexivity|].
  intros H; apply andb_prop in H as [Hc Hs].
  apply negb_true_iff in Hc; rewrite Hc, (IH Hs); reflexivity.
Qed.

Lemma split_dot_append (s t : string) :
  dot_free s = true ->
  split_dot (String.append s (String.append "." t)) = s :: split_dot t.
Proof.
  induction s as [|c s IH]; simpl; [reflexivity|].
  intros H; apply andb_prop in H as [Hc Hs].
  apply negb_true_iff in Hc; rewrite Hc.
  change (String "." t) with (String.append "." t).
  now rewrite (IH Hs).
Qed.

(** [key.split(".")] undoes the join of the iterator on keys without dots. *)
Lemma split_dot_join_dot (segments : list string) :
  segments <> [] ->
  forallb dot_free segments = true ->
  split_dot (join_dot segments) = segments.
Proof.
  induction segments as [|s rest IH]; [congruence|].
  intros _ H; simpl in H; apply andb_prop in H as [Hs Hrest].
  destruct rest as [|s' rest'].
  - simpl; now apply split_dot_dot_free.
  - change (join_dot (s :: s' :: rest'))
      with (String.append s (String.append "." (join_dot (s' :: rest')))).
    rewrite (split_dot_append _ _ Hs), IH; [reflexivity | discriminate | exact Hrest].
Qed.

(** ** dict lemmas *)

Lemma dict_get_set_same (k : string) (v : value) (d : dict) :
  dict_get k (dict_set k v d) = Some v.
Proof.
  induction d as [|[k' v'] d IH]; simpl.
  - now rewrite String.eqb_refl.
  - destruct (String.eqb k k') eqn:E; simpl; rewrite E; [reflexivity | exact IH].
Qed.

Lemma dict_set_set (k : string) (a b : value) (d : dict) :
  dict_set k a (dict_set k b d) = dict_set k a d.
Proof.
  induction d as [|[k' v'] d IH]; simpl.
  - now rewrite String.eqb_refl.
  - destruct (String.eqb k k') eqn:E; simpl; rewrite E; [reflexivity | now rewrite IH].
Qed.

Lemma dict_set_get (k : string) (v : value) (d : dict) :
  dict_get k d = Some v -> dict_set k v d = d.
Proof.
  induction d as [|[k' v'] d IH]; simpl; [discriminate|].
  destruct (String.eqb k k') eqn:E.
  - now intros [= ->].
  - intros H; now rewrite (IH H).
Qed.

Lemma dict_get_app_r (k : string) (d1 d2 : dict) :
  ~ In k (keys d1) -> dict_get k (d1 ++ d2) = dict_get k d2.
Proof.
  induction d1 as [|[k' v'] d1 IH]; simpl; [reflexivity|].
  intros H. destruct (String.eqb_spec k k') as [->|_].
  - exfalso; apply H; now left.
  - apply IH; intros Hin; apply H; now right.
Qed.

Lemma dict_set_middle (k : string) (v w : value) (d1 d2 : dict) :
  ~ In k (keys d1) ->
  dict_set k w (d1 ++ (k, v) :: d2) = d1 ++ (k, w) :: d2.
Proof.
  induction d1 as [|[k' v'] d1 IH]; simpl.
  - now rewrite String.eqb_refl.
  - intros H. destruct (String.eqb_spec k k') as [->|_].
    + exfalso; apply H; now left.
    + rewrite IH; [reflexivity|]. intros Hin; apply H; now right.
Qed.

Lemma in_dict_set (k : string) (v : value) (d : dict) (kv : string * value) :
  In kv (dict_set k v d) -> kv = (k, v) \/ In kv d.
Proof.
  induction d as [|[k' v'] d IH]; simpl.
  - intros [<-|[]]; now left.
  - destruct (String.eqb_spec k k') as [->|_]; simpl.
    + intros [<-|H]; [now left | right; now right].
    + intros [<-|H]; [right; now left|].
      destruct (IH H) as [->|H']; [now left | right; now right].
Qed.

Lemma keys_app (d1 d2 : dict) : keys (d1 ++ d2) = keys d1 ++ keys d2.
Proof. apply map_app. Qed.

(** ** Reading and writing along a chain of existing dicts *)

Lemma get_by_path_app (v : value) (p q : list string) :
  get_by_path v (p ++ q) = (x <- get_by_path v p ;; get_by_path x q).
Proof.
  revert v; induction p as [|k p IH]; intros v; simpl; [reflexivity|].
  destruct v; try reflexivity.
  destruct (dict_get k d); [apply IH | reflexivity].
Qed.

Lemma get_put_at (chain : list string) (T d d' : dict) :
  get_by_path (VDict T) chain = Ok (VDict d) ->
  get_by_path (VDict (put_at T chain d')) chain = Ok (VDict d').
Proof.
  revert T; induction chain as [|k rest IH]; intros T H; simpl in *.
  - reflexivity.
  - destruct (dict_get k T) as [v|] eqn:E; [|discriminate].
    destruct v; try (destruct rest; discriminate).
    rewrite dict_get_set_same. now apply IH.
Qed.

Lemma put_at_put_at (chain : list string) (T d d1 d2 : dict) :
  get_by_path (VDict T) chain = Ok (VDict d) ->
  put_at (put_at T chain d1) chain d2 = put_at T chain d2.
Proof.
  revert T; induction chain as [|k rest IH]; intros T H; simpl in *.
  - reflexivity.
  - destruct (dict_get k T) as [v|] eqn:E; [|discriminate].
    destruct v; try (destruct rest; discriminate).
    rewrite dict_get_set_same, dict_set_set. now rewrite (IH _ H).
Qed.

Lemma put_at_snoc (chain : list string) (k : string) (T d sub sub' : dict) :
  get_by_path (VDict T) chain = Ok (VDict d) ->
  dict_get k d = Some (VDict sub) ->
  put_at T (chain ++ [k]) sub' = put_at T chain (dict_set k (VDict sub') d).
Proof.
  revert T; induction chain as [|c rest IH]; intros T H Hk; simpl in *.
  - injection H as ->. now rewrite Hk.
  - destruct (dict_get c T) as [v|] eqn:E; [|discriminate].
    destruct v; try (destruct rest; discriminate).
    now rewrite (IH _ H Hk).
Qed.

Lemma put_at_same (chain : list string) (T d : dict) :
  get_by_path (VDict T) chain = Ok (VDict d) -> put_at T chain d = T.
Proof.
  revert T; induction chain as [|c rest IH]; intros T H; simpl in *.
  - now injection H as ->.
  - destruct (dict_get c T) as [v|] eqn:E; [|discriminate].
    destruct v; try (destruct rest; discriminate).
    rewrite (IH _ H). now apply dict_set_get.
Qed.

(** A write at [chain ++ [k]] replaces the entry [k] of the dict found
    along [chain]. *)
Lemma set_by_path_snoc (chain : list string) (k : string) (v : value)
    (T d : dict) :
  get_by_path (VDict T) chain = Ok (VDict d) ->
  set_by_path T (chain ++ [k]) v = Ok (put_at T chain (dict_set k v d)).
Proof.
  revert T; induction chain as [|c rest IH]; intros T H; simpl in H.
  - now injection H as ->.
  - destruct (dict_get c T) as [x|] eqn:E; [|discriminate].
    destruct x; try (destruct rest; discriminate).
    change ((c :: rest) ++ [k]) with (c :: (rest ++ [k])).
    assert (Hne : rest ++ [k] <> []) by (destruct rest; discriminate).
    simpl. destruct (rest ++ [k]) as [|k' rest'] eqn:R; [congruence|].
    rewrite E, (IH _ H); reflexivity.
Qed.

(** Writing the value that is already there changes nothing. *)
Lemma set_by_path_same (path : list string) (v : value) (T : dict) :
  path <> [] ->
  get_by_path (VDict T) path = Ok v ->
  set_by_path T path v = Ok T.
Proof.
  revert T; induction path as [|k rest IH]; intros T Hne H; [congruence|].
  simpl in H. destruct (dict_get k T) as [x|] eqn:E; [|discriminate].
  destruct rest as [|k' rest'].
  - simpl in H; injection H as ->. simpl. now rewrite (dict_set_get _ _ _ E).
  - destruct x; try discriminate.
    change (set_by_path T (k :: k' :: rest') v)
      with (match dict_get k T with
            | None => sub <- set_by_path [] (k' :: rest') v ;;
                      Ok (dict_set k (VDict sub) T)
            | Some (VDict d0) => sub <- set_by_path d0 (k' :: rest') v ;;
                                 Ok (dict_set k (VDict sub) T)
            | Some _ => Raise TypeError
            end).
    rewrite E, (IH d); [|discriminate | exact H]. simpl.
    now rewrite (dict_set_get _ _ _ E).
Qed.

(** ** The lazy iteration on payloads whose keys have no dot *)

Lemma distinct_NoDup (l : list string) : distinct l = true -> NoDup l.
Proof.
  induction l as [|k rest IH]; simpl; intros H; constructor.
  - apply andb_prop in H as [H _]. apply negb_true_iff in H.
    intros Hin. assert (E : existsb (String.eqb k) rest = true).
    { apply existsb_exists; exists k; split; [exact Hin | apply String.eqb_refl]. }
    congruence.
  - apply andb_prop in H as [_ H]; auto.
Qed.

Lemma payload_ok_dict (d : dict) :
  payload_ok (VDict d) = true ->
  NoDup (keys d) /\
  forall k v, In (k, v) d -> dot_free k = true /\ payload_ok v = true.
Proof.
  simpl; intros H; apply andb_prop in H as [Hd He]; split.
  - now apply distinct_NoDup.
  - clear Hd; induction d as [|[k' v'] d IH]; intros k v []; simpl in He;
      apply andb_prop in He as [Hkv He]; apply andb_prop in Hkv as [Hk Hv].
    + injection H as <- <-; now split.
    + now apply IH.
Qed.

Lemma weight_cons (k : string) (v : value) (rest : dict) :
  weight (VDict ((k, v) :: rest)) = (S (weight v) + weight (VDict rest))%nat.
Proof. simpl; lia. Qed.

Lemma weight_dict_pos (d : dict) : (1 <= weight (VDict d))%nat.
Proof. simpl; lia. Qed.

Section IteratorSteps.

Variable S : Type.
Variable payload : S -> dict.
Variable body : string -> value -> S -> result S.

Lemma iterator_stop (fuel : nat) (chain : list string) (pos used : nat)
    (st : S) (d : dict) :
  get_by_path (VDict (payload st)) chain = Ok (VDict d) ->
  List.length d = used ->
  nth_error d pos = None ->
  get_document_iterator payload body (Datatypes.S fuel) chain pos used st
  = Some (Ok st).
Proof.
  intros H Hu Hn; simpl. rewrite H, Hu, Nat.eqb_refl; simpl. now rewrite Hn.
Qed.

Lemma iterator_leaf (fuel : nat) (chain : list string) (pos used : nat)
    (st : S) (d : dict) (k : string) (v : value) :
  get_by_path (VDict (payload st)) chain = Ok (VDict d) ->
  List.length d = used ->
  nth_error d pos = Some (k, v) ->
  is_dict v = false ->
  get_document_iterator payload body (Datatypes.S fuel) chain pos used st
  = match body (join_dot (chain ++ [k])) v st with
    | Ok st' =>
        get_document_iterator payload body fuel chain (Datatypes.S pos) used st'
    | Raise e => Some (Raise e)
    end.
Proof.
  intros H Hu Hn Hv; simpl. rewrite H, Hu, Nat.eqb_refl; simpl. rewrite Hn.
  destruct v; try reflexivity; discriminate.
Qed.

Lemma iterator_dict (fuel : nat) (chain : list string) (pos used : nat)
    (st : S) (d : dict) (k : string) (sub : dict) :
  get_by_path (VDict (payload st)) chain = Ok (VDict d) ->
  List.length d = used ->
  nth_error d pos = Some (k, VDict sub) ->
  get_document_iterator payload body (Datatypes.S fuel) chain pos used st
  = match get_document_iterator payload body fuel (chain ++ [k]) 0
            (List.length sub) st with
    | Some (Ok st') =>
        get_document_iterator payload body fuel chain (Datatypes.S pos) used st'
    | stop => stop
    end.
Proof.
  intros H Hu Hn; simpl. rewrite H, Hu, Nat.eqb_refl; simpl. now rewrite Hn.
Qed.

End IteratorSteps.

Lemma recorded_refl (document : dict) (default : value) (chain : list string)
    (todo old : dict) :
  recorded document default chain todo old old.
Proof. intros key op H; now left. Qed.

Lemma recorded_leaf (document : dict) (default : value) (chain : list string)
    (k : string) (op nv : value) (old : dict) :
  dot_free k = true ->
  second_value document default (chain ++ [k]) op = Ok nv ->
  recorded document default chain [(k, nv)]
    (dict_set (join_dot (chain ++ [k])) op old) old.
Proof.
  intros Hk Hv key op' H. apply in_dict_set in H as [[= -> ->]|H]; [right | now left].
  exists k, [], nv; repeat split; auto.
  - now left.
  - simpl; now rewrite Hk.
  - simpl; now rewrite String.eqb_refl.
Qed.

Lemma recorded_child (document : dict) (default : value) (chain : list string)
    (k : string) (sub : dict) (new old : dict) :
  dot_free k = true ->
  recorded document default (chain ++ [k]) sub new old ->
  recorded document default chain [(k, VDict sub)] new old.
Proof.
  intros Hk H key op Hin.
  destruct (H key op Hin) as [Hold | (kc & rel & val & -> & Hkc & Hdf & Hv & Hg)];
    [now left | right].
  exists k, (kc :: rel), val. rewrite <- app_assoc in Hv |- *. simpl in Hv |- *.
  repeat split; auto.
  - simpl in Hdf; now rewrite Hk, Hdf.
  - rewrite String.eqb_refl. exact Hg.
Qed.

Lemma recorded_cons (document : dict) (default : value) (chain : list string)
    (k : string) (x : value) (todo : dict) (new mid old : dict) :
  ~ In k (keys todo) ->
  recorded document default chain [(k, x)] mid old ->
  recorded document default chain todo new mid ->
  recorded document default chain ((k, x) :: todo) new old.
Proof.
  intros Hk H1 H2 key op Hin.
  destruct (H2 key op Hin) as [Hmid | (k2 & rel & val & -> & Hk2 & Hdf & Hv & Hg)].
  - destruct (H1 key op Hmid) as [Hold | (k1 & rel & val & -> & Hk1 & Hdf & Hv & Hg)];
      [now left | right].
    simpl in Hk1; destruct Hk1 as [<-|[]].
    exists k, rel, val; repeat split; auto.
    + now left.
    + simpl in Hg |- *. rewrite String.eqb_refl in Hg |- *. exact Hg.
  - right. exists k2, rel, val; repeat split; auto.
    + now right.
    + simpl in Hg |- *. destruct (String.eqb_spec k2 k) as [->|_]; [contradiction|].
      exact Hg.
Qed.

(** What one run of the loop body does to the state. *)
Lemma loop_body_ok (set_order : list value -> list value) (document : dict)
    (key : string) (v : value) (T incs unions : dict) (st1 : loop_state) :
  loop_body set_order document key v (mk_state T incs unions) = Ok st1 ->
  exists nv,
    ((isinstance_Transform v = true /\
      call set_order v document (split_dot key) = Ok nv /\
      set_by_path T (split_dot key) nv = Ok (data st1)) \/
     (isinstance_Transform v = false /\ nv = v /\ data st1 = T)) /\
    (increments st1 = incs \/
     exists n, increments st1 = dict_set key n incs /\
       second_value document (VInt 0) (split_dot key) n = Ok nv) /\
    (arr_unions st1 = unions \/
     exists l, arr_unions st1 = dict_set key l unions /\
       second_value document (VList []) (split_dot key) l = Ok nv).
Proof.
  unfold loop_body; intros H.
  destruct v; cbn [isinstance_Transform] in H;
    try (simpl in H; injection H as <-; eexists; split;
         [right; repeat split | split; now left]).
  all: destruct (call set_order _ document (split_dot key)) as [nv|e] eqn:Ec;
    [|simpl in H; discriminate];
    cbn [bind data] in H;
    destruct (set_by_path T (split_dot key) nv) as [T1|e] eqn:Es;
    [|simpl in H; discriminate];
    cbn [bind data increments arr_unions] in H; injection H as <-;
    exists nv; (split; [left; repeat split; assumption|]);
    cbn [data increments arr_unions].
  - split; [now left | right]. eexists; split; [reflexivity | exact Ec].
  - split; now left.
  - split; [right | now left]. eexists; split; [reflexivity | exact Ec].
  - split; now left.
  - split; now left.
Qed.

(** The iteration over a payload without dotted keys: it ends, and when it
    ends normally the dict under iteration has the same keys as before,
    the rest of the payload is untouched, and every recorded operand sits
    beside the value of its own leaf. *)
Lemma iterate_payload (set_order : list value -> list value)
    (document : dict) (fuel : nat) :
  forall (T : dict) (chain : list string) (done todo incs unions : dict)
         (pos used : nat),
    get_by_path (VDict T) chain = Ok (VDict (done ++ todo)) ->
    forallb dot_free chain = true ->
    NoDup (keys (done ++ todo)) ->
    (forall k v, In (k, v) todo -> dot_free k = true /\ payload_ok v = true) ->
    (weight (VDict todo) <= fuel)%nat ->
    pos = List.length done ->
    used = List.length (done ++ todo) ->
    exists r,
      get_document_iterator data (loop_body set_order document) fuel chain
        pos used (mk_state T incs unions) = Some r /\
      forall st', r = Ok st' ->
        exists todo',
          keys todo' = keys todo /\
          data st' = put_at T chain (done ++ todo') /\
          recorded document (VInt 0) chain todo' (increments st') incs /\
          recorded document (VList []) chain todo' (arr_unions st') unions.
Proof.
  induction fuel as [|fuel IH];
    intros T chain done todo incs unions pos used HT Hchain Hnd Htodo Hw Hpos Hused.
  { pose proof (weight_dict_pos todo); lia. }
  destruct todo as [|[k v] rest].
  - (* the iterator is exhausted *)
    exists (Ok (mk_state T incs unions)); split.
    + apply (iterator_stop _ data (loop_body set_order document) fuel chain
               pos used (mk_state T incs unions) (done ++ [])); auto.
      rewrite app_nil_r, Hpos. apply nth_error_None; lia.
    + intros st' [= <-]. exists []; repeat split.
      * simpl. symmetry; now apply put_at_same.
      * apply recorded_refl.
      * apply recorded_refl.
  - assert (Hk : dot_free k = true /\ payload_ok v = true)
      by (apply Htodo; now left).
    destruct Hk as [Hk Hv].
    rewrite keys_app in Hnd; simpl in Hnd.
    assert (Hk_done : ~ In k (keys done)).
    { intros Hin. apply NoDup_remove_2 in Hnd. apply Hnd, in_or_app; now left. }
    assert (Hk_rest : ~ In k (keys rest)).
    { intros Hin. apply NoDup_remove_2 in Hnd. apply Hnd, in_or_app; now right. }
    assert (Hnth : nth_error (done ++ (k, v) :: rest) pos = Some (k, v)).
    { rewrite Hpos, nth_error_app2, Nat.sub_diag by lia; reflexivity. }
    rewrite weight_cons in Hw.
    pose proof (weight_dict_pos rest) as Hwr.
    (* the rest of the dict, once the entry [k] holds [x] *)
    assert (Hcont : forall x incs1 unions1,
      recorded document (VInt 0) chain [(k, x)] incs1 incs ->
      recorded document (VList []) chain [(k, x)] unions1 unions ->
      exists r,
        get_document_iterator data (loop_body set_order document) fuel chain
          (S pos) used
          (mk_state (put_at T chain (done ++ (k, x) :: rest)) incs1 unions1)
        = Some r /\
        forall st', r = Ok st' ->
          exists todo',
            keys todo' = keys ((k, v) :: rest) /\
            data st' = put_at T chain (done ++ todo') /\
            recorded document (VInt 0) chain todo' (increments st') incs /\
            recorded document (VList []) chain todo' (arr_unions st') unions).
    { intros x incs1 unions1 R1 R2.
      destruct (IH (put_at T chain (done ++ (k, x) :: rest)) chain
                  (done ++ [(k, x)]) rest incs1 unions1 (S pos) used)
        as (r & Hr & Hok).
      - rewrite <- app_assoc; simpl. eapply get_put_at; eassumption.
      - exact Hchain.
      - rewrite <- app_assoc, keys_app; simpl. exact Hnd.
      - intros k' v' Hin; apply Htodo; now right.
      - lia.
      - rewrite length_app; simpl; lia.
      - rewrite Hused, <- app_assoc, !length_app; simpl; lia.
      - exists r; split; [exact Hr|].
        intros st' Hst. destruct (Hok st' Hst) as (todo2 & Hkeys & Hdata & Q1 & Q2).
        exists ((k, x) :: todo2); repeat split.
        + simpl; now rewrite Hkeys.
        + rewrite Hdata, <- app_assoc; simpl. eapply put_at_put_at; eassumption.
        + apply recorded_cons with (mid := incs1); auto. now rewrite Hkeys.
        + apply recorded_cons with (mid := unions1); auto. now rewrite Hkeys. }
    destruct (is_dict v) eqn:Hd.
    + (* a nested dict: its own iterator runs first *)
      destruct v as [| | | | | |sub| | | | |]; try discriminate.
      rewrite (iterator_dict _ data (loop_body set_order document) fuel chain
                 pos used (mk_state T incs unions) _ k sub HT (eq_sym Hused) Hnth).
      destruct (payload_ok_dict _ Hv) as [Hnd_sub Hsub].
      destruct (IH T (chain ++ [k]) [] sub incs unions 0%nat (List.length sub))
        as (r1 & Hr1 & Hok1); auto.
      * rewrite get_by_path_app, HT; simpl.
        rewrite dict_get_app_r by assumption; simpl.
        now rewrite String.eqb_refl.
      * rewrite forallb_app, Hchain; simpl; now rewrite Hk.
      * lia.
      * cbn [data] in Hr1. rewrite Hr1.
        destruct r1 as [st1|e].
        -- destruct (Hok1 st1 eq_refl) as (sub' & Hkeys & Hdata & Q1 & Q2).
           simpl in Hdata.
           rewrite (put_at_snoc chain k T (done ++ (k, VDict sub) :: rest) sub sub')
             in Hdata; auto.
           2:{ rewrite dict_get_app_r by assumption; simpl.
               now rewrite String.eqb_refl. }
           rewrite dict_set_middle in Hdata by assumption.
           destruct st1 as [T1 incs1 unions1]; cbn [data increments arr_unions] in *.
           subst T1. apply Hcont; apply recorded_child; auto.
        -- exists (Raise e); split; [reflexivity | discriminate].
    + (* a leaf: the loop body runs on it *)
      rewrite (iterator_leaf _ data (loop_body set_order document) fuel chain
                 pos used (mk_state T incs unions) _ k v HT (eq_sym Hused) Hnth Hd).
      assert (Hpath : split_dot (join_dot (chain ++ [k])) = chain ++ [k]).
      { apply split_dot_join_dot; [destruct chain; discriminate|].
        rewrite forallb_app, Hchain; simpl; now rewrite Hk. }
      destruct (loop_body set_order document (join_dot (chain ++ [k])) v
                  (mk_state T incs unions)) as [st1|e] eqn:Hbody.
      * destruct (loop_body_ok _ _ _ _ _ _ _ _ Hbody) as (nv & HT1 & Hi & Hu).
        rewrite Hpath in *.
        assert (Hdata : data st1 = put_at T chain (done ++ (k, nv) :: rest)).
        { destruct HT1 as [(_ & _ & Hs) | (_ & -> & ->)].
          - rewrite (set_by_path_snoc chain k nv T _ HT) in Hs.
            injection Hs as <-. now rewrite dict_set_middle.
          - symmetry; now apply put_at_same. }
        destruct st1 as [T1 incs1 unions1]; cbn [data increments arr_unions] in *.
        subst T1. apply Hcont.
        -- destruct Hi as [->|(n & -> & Hn)];
             [apply recorded_refl | now apply recorded_leaf].
        -- destruct Hu as [->|(l & -> & Hl)];
             [apply recorded_refl | now apply recorded_leaf].
      * exists (Raise e); split; [reflexivity | discriminate].
Qed.

Section IteratorFuel.

Variable S : Type.
Variable payload : S -> dict.
Variable body : string -> value -> S -> result S.

(** More fuel does not change an answer. *)
Lemma iterator_fuel_mono (fuel : nat) :
  forall (fuel' : nat) (chain : list string) (pos used : nat) (st : S)
         (r : result S),
    (fuel <= fuel')%nat ->
    get_document_iterator payload body fuel chain pos used st = Some r ->
    get_document_iterator payload body fuel' chain pos used st = Some r.
Proof.
  induction fuel as [|fuel IH]; intros fuel' chain pos used st r Hle H;
    [discriminate|].
  destruct fuel' as [|fuel']; [lia|].
  assert (Hle' : (fuel <= fuel')%nat) by lia.
  simpl in H |- *.
  destruct (get_by_path (VDict (payload st)) chain) as [v|]; [|discriminate].
  destruct v; try discriminate.
  destruct (negb (Nat.eqb (List.length d) used)); [exact H|].
  destruct (nth_error d pos) as [[k v]|]; [|exact H].
  destruct v;
    try (destruct (body (join_dot (chain ++ [k])) _ st);
         [now apply IH | exact H]).
  destruct (get_document_iterator payload body fuel (chain ++ [k]) 0
              (List.length d0) st) as [[st'|e]|] eqn:Hc; [| |discriminate].
  - rewrite (IH _ _ _ _ _ _ Hle' Hc). now apply IH.
  - now rewrite (IH _ _ _ _ _ _ Hle' Hc).
Qed.

End IteratorFuel.

(** The second pass changes nothing when every recorded key already holds
    the value it computes. *)
Lemma second_pass_noop (document new_values : dict) (default : value)
    (data0 : dict) :
  (forall key op, In (key, op) new_values ->
     exists val,
       second_value document default (split_dot key) op = Ok val /\
       get_by_path (VDict data0) (split_dot key) = Ok val) ->
  _update_data_with_firestore_transforms document new_values default data0
  = Ok data0.
Proof.
  induction new_values as [|[key op] rest IH]; intros H; simpl; [reflexivity|].
  destruct (H key op (or_introl eq_refl)) as (val & Hv & Hg).
  unfold second_value in Hv.
  destruct (except_TypeError_KeyError
              (get_by_path (VDict document) (split_dot key)) default)
    as [item|e]; [|discriminate].
  simpl in Hv |- *. rewrite Hv; simpl.
  rewrite (set_by_path_same _ _ _ (split_dot_nonempty key) Hg); simpl.
  apply IH. intros key' op' Hin; apply H; now right.
Qed.

(** After the first pass over a payload without dotted keys, every
    recorded operand sits beside the value the second pass computes. *)
Lemma first_pass_recorded (set_order : list value -> list value)
    (fuel : nat) (document data0 : dict) (st : loop_state) :
  payload_ok (VDict data0) = true ->
  first_pass set_order fuel document data0 = Some (Ok st) ->
  (forall key op, In (key, op) (increments st) ->
     exists val,
       second_value document (VInt 0) (split_dot key) op = Ok val /\
       get_by_path (VDict (data st)) (split_dot key) = Ok val) /\
  (forall key op, In (key, op) (arr_unions st) ->
     exists val,
       second_value document (VList []) (split_dot key) op = Ok val /\
       get_by_path (VDict (data st)) (split_dot key) = Ok val).
Proof.
  intros Hok Hrun.
  destruct (payload_ok_dict _ Hok) as [Hnd Hent].
  destruct (iterate_payload set_order document
              (Nat.max fuel (weight (VDict data0))) data0 [] [] data0 [] []
              0%nat (List.length data0))
    as (r & Hr & Hspec); auto; try lia.
  unfold first_pass in Hrun.
  apply (iterator_fuel_mono _ _ _ fuel (Nat.max fuel (weight (VDict data0))))
    in Hrun; [|lia].
  rewrite Hrun in Hr; injection Hr as <-.
  destruct (Hspec st eq_refl) as (todo' & _ & Hdata & Q1 & Q2).
  simpl in Hdata. rewrite Hdata.
  split; intros key op Hin.
  - destruct (Q1 key op Hin) as [[] | (k & rel & val & -> & _ & Hdf & Hv & Hg)].
    simpl app in *.
    rewrite split_dot_join_dot by (auto; discriminate).
    now exists val.
  - destruct (Q2 key op Hin) as [[] | (k & rel & val & -> & _ & Hdf & Hv & Hg)].
    simpl app in *.
    rewrite split_dot_join_dot by (auto; discriminate).
    now exists val.
Qed.

(** C5, as stated, fails: with the empty document, the first pass leaves
    5 at a.b (the Increment is visited last) and the second pass then
    writes [1] there (the unions are rewritten last), so the two engines
    return different documents. *)
Lemma second_pass_differs_on_shared_path :
  _apply_transformations id_order 10 [] shared_path_payload
  = Some (Ok ([("a", VDict [("b", VList [VInt 1])]);
               ("a.b", Increment (VInt 5))],
              [("a", VDict [("b", VList [VInt 1])]);
               ("a.b", Increment (VInt 5))])) /\
  single_pass id_order 10 [] shared_path_payload
  = Some (Ok ([("a", VDict [("b", VInt 5)]); ("a.b", Increment (VInt 5))],
              [("a", VDict [("b", VInt 5)]); ("a.b", Increment (VInt 5))])) /\
  _apply_transformations id_order 10 [] shared_path_payload
  <> single_pass id_order 10 [] shared_path_payload.
Proof.
  split; [reflexivity | split; [reflexivity | discriminate]].
Qed.

(** C5, amended.  For every document and every payload none of whose keys
    contains a dot, the second pass writes at each Increment and
    ArrayUnion path the value the first pass left there, and the engine
    returns what the engine without the second pass returns; with fuel
    for the iteration it does return. *)
Theorem second_pass_redundant (set_order : list value -> list value)
    (document data0 : dict) :
  payload_ok (VDict data0) = true ->
  (forall fuel,
     _apply_transformations set_order fuel document data0
     = single_pass set_order fuel document data0) /\
  (forall fuel st,
     first_pass set_order fuel document data0 = Some (Ok st) ->
     _update_data_with_firestore_transforms document (increments st)
       (VInt 0) (data st) = Ok (data st) /\
     _update_data_with_firestore_transforms document (arr_unions st)
       (VList []) (data st) = Ok (data st)) /\
  (forall fuel, (weight (VDict data0) <= fuel)%nat ->
     exists r, _apply_transformations set_order fuel document data0 = Some r).
Proof.
  intros Hok.
  assert (Hnoop : forall fuel st,
     first_pass set_order fuel document data0 = Some (Ok st) ->
     _update_data_with_firestore_transforms document (increments st)
       (VInt 0) (data st) = Ok (data st) /\
     _update_data_with_firestore_transforms document (arr_unions st)
       (VList []) (data st) = Ok (data st)).
  { intros fuel st Hrun.
    destruct (first_pass_recorded _ _ _ _ _ Hok Hrun) as [Q1 Q2].
    split; now apply second_pass_noop. }
  split; [|split].
  - intros fuel. unfold _apply_transformations, single_pass.
    destruct (first_pass set_order fuel document data0) as [[st|e]|] eqn:Hrun;
      try reflexivity.
    destruct (Hnoop fuel st Hrun) as [-> E]; simpl. now rewrite E.
  - exact Hnoop.
  - intros fuel Hfuel.
    destruct (payload_ok_dict _ Hok) as [Hnd Hent].
    destruct (iterate_payload set_order document fuel data0 [] [] data0 [] []
                0%nat (List.length data0))
      as (r & Hr & _); auto.
    unfold _apply_transformations, first_pass. rewrite Hr.
    destruct r; eexists; reflexivity.
Qed.

Lemma second_pass_redundant_witness :
  _apply_transformations id_order 10
    [("count", VInt 1); ("tags", VList [VStr "x"])]
    [("count", Increment (VInt 2)); ("tags", ArrayUnion [VStr "y"]);
     ("stats", VDict [("hits", Increment (VInt 1))])]
  = single_pass id_order 10
      [("count", VInt 1); ("tags", VList [VStr "x"])]
      [("count", Increment (VInt 2)); ("tags", ArrayUnion [VStr "y"]);
       ("stats", VDict [("hits", Increment (VInt 1))])].
Proof.
  exact (proj1 (second_pass_redundant id_order
                  [("count", VInt 1); ("tags", VList [VStr "x"])]
                  [("count", Increment (VInt 2)); ("tags", ArrayUnion [VStr "y"]);
                   ("stats", VDict [("hits", Increment (VInt 1))])]
                  eq_refl) 10%nat).
Defined.

(** ** Merging a single instruction *)

Lemma merge_one_ArrayUnion (set_order : list value -> list value) (f : nat)
    (document : dict) (k : string) (values : list value) (nv : value) :
  dot_free k = true ->
  ArrayUnion_call values document [k] = Ok nv ->
  _apply_transformations set_order (S (S f)) document [(k, ArrayUnion values)]
  = Some (Ok (dict_set k nv document, [(k, nv)])).
Proof.
  intros Hk Hc.
  assert (Hfirst : first_pass set_order (S (S f)) document [(k, ArrayUnion values)]
                   = Some (Ok (mk_state [(k, nv)] [] [(k, VList values)]))).
  { unfold first_pass.
    rewrite (iterator_leaf _ data (loop_body set_order document) (S f) [] 0%nat 1%nat
               _ [(k, ArrayUnion values)] k (ArrayUnion values));
      try reflexivity.
    change (join_dot ([] ++ [k])) with k.
    unfold loop_body. rewrite (split_dot_dot_free _ Hk).
    cbn [isinstance_Transform call]. rewrite Hc.
    cbn [bind data set_by_path dict_set increments arr_unions].
    rewrite String.eqb_refl. cbn [bind data increments arr_unions dict_set].
    apply (iterator_stop _ data (loop_body set_order document) f [] 1%nat 1%nat
             _ [(k, nv)]); reflexivity. }
  unfold _apply_transformations. rewrite Hfirst.
  cbn [increments arr_unions data _update_data_with_firestore_transforms bind].
  rewrite (split_dot_dot_free _ Hk).
  unfold ArrayUnion_call in Hc.
  destruct (except_TypeError_KeyError (get_by_path (VDict document) [k]) (VList []))
    as [item|e]; [|discriminate].
  cbn [bind] in Hc |- *. rewrite Hc.
  cbn [bind set_by_path dict_set]. rewrite String.eqb_refl.
  reflexivity.
Qed.

(** C9. Merging the same ArrayUnion instruction twice is not idempotent:
    with [current] the list at the key (the empty list when the key is
    absent), the first merge leaves [current ++ values] there, the second
    leaves [current ++ values ++ values], whose length has grown by
    [len(values)] again, and the two documents differ. *)
Theorem ArrayUnion_merge_not_idempotent (set_order : list value -> list value)
    (f : nat) (document : dict) (k : string) (current values : list value) :
  dot_free k = true ->
  dict_get k document = Some (VList current) \/
  dict_get k document = None /\ current = [] ->
  values <> [] ->
  exists d1 d2 p1 p2,
    _apply_transformations set_order (S (S f)) document [(k, ArrayUnion values)]
    = Some (Ok (d1, p1)) /\
    _apply_transformations set_order (S (S f)) d1 [(k, ArrayUnion values)]
    = Some (Ok (d2, p2)) /\
    dict_get k d1 = Some (VList (current ++ values)) /\
    dict_get k d2 = Some (VList (current ++ values ++ values)) /\
    List.length (current ++ values ++ values)
    = (List.length (current ++ values) + List.length values)%nat /\
    d2 <> d1.
Proof.
  intros Hk Hget Hne.
  assert (H1 : ArrayUnion_call values document [k]
               = Ok (VList (current ++ values))).
  { unfold ArrayUnion_call; simpl.
    destruct Hget as [-> | [-> ->]]; reflexivity. }
  set (d1 := dict_set k (VList (current ++ values)) document).
  assert (Hget1 : dict_get k d1 = Some (VList (current ++ values)))
    by apply dict_get_set_same.
  assert (H2 : ArrayUnion_call values d1 [k]
               = Ok (VList (current ++ values ++ values))).
  { unfold ArrayUnion_call; simpl. rewrite Hget1; simpl. now rewrite <- app_assoc. }
  exists d1, (dict_set k (VList (current ++ values ++ values)) d1),
    [(k, VList (current ++ values))], [(k, VList (current ++ values ++ values))].
  split; [now apply merge_one_ArrayUnion|].
  split; [now apply merge_one_ArrayUnion|].
  split; [exact Hget1|].
  split; [apply dict_get_set_same|].
  split; [rewrite !length_app; lia|].
  intros E.
  assert (E' : dict_get k (dict_set k (VList (current ++ values ++ values)) d1)
               = dict_get k d1) by now rewrite E.
  rewrite dict_get_set_same, Hget1 in E'. injection E' as E'.
  apply (f_equal (@List.length value)) in E'. rewrite !length_app in E'.
  destruct values; [congruence | simpl in E'; lia].
Qed.

Lemma ArrayUnion_merge_not_idempotent_witness :
  exists d1 d2 p1 p2,
    _apply_transformations id_order 2 [("tags", VList [VStr "x"])]
      [("tags", ArrayUnion [VStr "y"])] = Some (Ok (d1, p1)) /\
    _apply_transformations id_order 2 d1
      [("tags", ArrayUnion [VStr "y"])] = Some (Ok (d2, p2)) /\
    dict_get "tags" d1 = Some (VList ([VStr "x"] ++ [VStr "y"])) /\
    dict_get "tags" d2 = Some (VList ([VStr "x"] ++ [VStr "y"] ++ [VStr "y"])) /\
    List.length ([VStr "x"] ++ [VStr "y"] ++ [VStr "y"])
    = (List.length ([VStr "x"] ++ [VStr "y"]) + List.length [VStr "y"])%nat /\
    d2 <> d1.
Proof.
  apply (ArrayUnion_merge_not_idempotent id_order 0
           [("tags", VList [VStr "x"])] "tags" [VStr "x"] [VStr "y"]).
  - reflexivity.
  - left; reflexivity.
  - discriminate.
Defined.

(** C8. Merging {"a.b": Maximum(5)} into the empty document does not
    yield {"a": {"b": 5}}: the loop body writes 5 at a.b in the payload
    it is iterating, keeps the key "a.b" beside the new key "a", and the
    next step of the iteration raises [RuntimeError] because the dict has
    changed size. *)
Theorem dotted_key_merge_raises (set_order : list value -> list value)
    (f : nat) :
  loop_body set_order [] "a.b" (Maximum (VInt 5))
    (mk_state [("a.b", Maximum (VInt 5))] [] [])
  = Ok (mk_state [("a.b", Maximum (VInt 5)); ("a", VDict [("b", VInt 5)])]
          [] []) /\
  _apply_transformations set_order (S (S f)) [] [("a.b", Maximum (VInt 5))]
  = Some (Raise RuntimeError).
Proof.
  split; reflexivity.
Qed.

Lemma get_by_path_through_scalar (document : dict) (a b : string) (x : value) :
  dict_get a document = Some x -> is_dict x = false ->
  get_by_path (VDict document) [a; b] = Raise TypeError.
Proof.
  intros Ha Hx; simpl; rewrite Ha. destruct x; try reflexivity; discriminate.
Qed.

(** A nested Increment whose path in the document goes through a value
    that is not a mapping: the merge returns, with [0 + n] at the path. *)
Lemma merge_nested_Increment_over_scalar
    (set_order : list value -> list value) (f : nat) (document : dict)
    (a b : string) (x n r : value) :
  dot_free a = true -> dot_free b = true ->
  dict_get a document = Some x -> is_dict x = false ->
  py_add (VInt 0) n = Ok r ->
  _apply_transformations set_order (S (S (S f))) document
    [(a, VDict [(b, Increment n)])]
  = Some (Ok (dict_set a (VDict [(b, r)]) document, [(a, VDict [(b, r)])])).
Proof.
  intros Ha Hb Hget Hx Hr.
  pose proof (get_by_path_through_scalar document a b x Hget Hx) as Hread.
  assert (Hpath : split_dot (join_dot [a; b]) = [a; b]).
  { apply split_dot_join_dot; [discriminate|]. simpl; now rewrite Ha, Hb. }
  assert (Hfirst :
    first_pass set_order (S (S (S f))) document [(a, VDict [(b, Increment n)])]
    = Some (Ok (mk_state [(a, VDict [(b, r)])] [(join_dot [a; b], n)] []))).
  { unfold first_pass.
    rewrite (iterator_dict _ data (loop_body set_order document) (S (S f)) []
               0%nat 1%nat _ [(a, VDict [(b, Increment n)])] a [(b, Increment n)]);
      try reflexivity.
    rewrite (iterator_leaf _ data (loop_body set_order document) (S f) ([] ++ [a])
               0%nat 1%nat _ [(b, Increment n)] b (Increment n));
      try reflexivity.
    2:{ simpl. now rewrite String.eqb_refl. }
    change (([] ++ [a]) ++ [b]) with [a; b].
    unfold loop_body. rewrite Hpath.
    cbn [isinstance_Transform call]. unfold Increment_call.
    rewrite Hread. cbn [except_TypeError_KeyError bind]. rewrite Hr.
    cbn [bind data set_by_path dict_get]. rewrite String.eqb_refl.
    cbn [bind dict_set]. rewrite !String.eqb_refl.
    cbn [bind data increments arr_unions dict_set].
    rewrite (iterator_stop _ data (loop_body set_order document) f ([] ++ [a])
               1%nat 1%nat _ [(b, r)]); try reflexivity.
    simpl. now rewrite String.eqb_refl. }
  unfold _apply_transformations. rewrite Hfirst.
  cbn [increments arr_unions data _update_data_with_firestore_transforms bind].
  rewrite Hpath, Hread. cbn [except_TypeError_KeyError bind]. rewrite Hr.
  cbn [bind set_by_path dict_get]. rewrite String.eqb_refl.
  cbn [bind dict_set]. rewrite !String.eqb_refl.
  reflexivity.
Qed.

(** C6, as stated, fails: the document holds 5 at "a", so reading a.b
    goes through a value that is not a mapping and raises [TypeError];
    the merge of {"a": {"b": Increment(1)}} does not abort, it takes the
    default 0 and leaves 1 at a.b. *)
Lemma merge_recovers_TypeError :
  get_by_path (VDict [("a", VInt 5)]) ["a"; "b"] = Raise TypeError /\
  _apply_transformations id_order 10 [("a", VInt 5)]
    [("a", VDict [("b", Increment (VInt 1))])]
  = Some (Ok ([("a", VDict [("b", VInt 1)])], [("a", VDict [("b", VInt 1)])])).
Proof.
  split; reflexivity.
Qed.

(** C6, amended.  When the read of a transform's target path in the
    document goes through a segment that is not a mapping, the
    [TypeError] is caught like the [KeyError] of an absent path: each
    variant, and the second pass, computes from its default, no error
    reaches the caller from that read, and the merge goes on; so the
    merge of {a: {b: Increment(n)}} into a document that holds a scalar
    at [a] returns with [0 + n] at a.b. *)
Theorem TypeError_read_is_recovered (set_order : list value -> list value) :
  (forall (document : dict) (path : list string),
     get_by_path (VDict document) path = Raise TypeError ->
     (forall n, Increment_call n document path = py_add (VInt 0) n) /\
     (forall values,
        ArrayUnion_call values document path = Ok (VList values)) /\
     (forall values,
        ArrayRemove_call set_order values document path
        = (t <- py_set (VList values) ;; Ok (VList (set_order [])))) /\
     (forall n, Maximum_call n document path = Ok n) /\
     (forall n, Minimum_call n document path = Ok n) /\
     (forall default op,
        second_value document default path op = py_add default op)) /\
  (forall (f : nat) (document : dict) (a b : string) (x n : value),
     dot_free a = true -> dot_free b = true ->
     dict_get a document = Some x -> is_dict x = false ->
     isinstance_int_float n = true ->
     get_by_path (VDict document) [a; b] = Raise TypeError /\
     exists r,
       py_add (VInt 0) n = Ok r /\
       xnum_of r = xnum_of n /\
       _apply_transformations set_order (S (S (S f))) document
         [(a, VDict [(b, Increment n)])]
       = Some (Ok (dict_set a (VDict [(b, r)]) document,
                   [(a, VDict [(b, r)])]))).
Proof.
  split.
  - intros document path H.
    unfold Increment_call, ArrayUnion_call, ArrayRemove_call, Maximum_call,
      Minimum_call, second_value.
    rewrite H; simpl. repeat split; reflexivity.
  - intros f document a b x n Ha Hb Hget Hx Hn.
    split; [now apply get_by_path_through_scalar with x|].
    destruct (py_add_zero_l n Hn) as (r & Hr & Hnum & _).
    exists r; repeat split; auto.
    exact (merge_nested_Increment_over_scalar set_order f document a b x n r
             Ha Hb Hget Hx Hr).
Qed.

Lemma TypeError_read_is_recovered_witness :
  Increment_call (VInt 1) [("a", VInt 5)] ["a"; "b"] = Ok (VInt 1) /\
  Maximum_call (VInt 1) [("a", VInt 5)] ["a"; "b"] = Ok (VInt 1) /\
  exists r,
    py_add (VInt 0) (VInt 1) = Ok r /\
    xnum_of r = xnum_of (VInt 1) /\
    _apply_transformations id_order 3 [("a", VInt 5)]
      [("a", VDict [("b", Increment (VInt 1))])]
    = Some (Ok (dict_set "a" (VDict [("b", r)]) [("a", VInt 5)],
                [("a", VDict [("b", r)])])).
Proof.
  pose proof (proj1 (TypeError_read_is_recovered id_order)
                [("a", VInt 5)] ["a"; "b"] eq_refl) as (Hi & _ & _ & Hmax & _).
  split; [rewrite Hi; reflexivity | split; [apply Hmax|]].
  exact (proj2 (proj2 (TypeError_read_is_recovered id_order) 0%nat
                  [("a", VInt 5)] "a" "b" (VInt 5) (VInt 1)
                  eq_refl eq_refl eq_refl eq_refl eq_refl)).
Defined.

(** ** Runs of the engine *)

Example merge_count_and_tags :
  _apply_transformations id_order 3
    [("count", VInt 1); ("tags", VList [VStr "x"])]
    [("count", Increment (VInt 2)); ("tags", ArrayUnion [VStr "y"])]
  = Some (Ok ([("count", VInt 3); ("tags", VList [VStr "x"; VStr "y"])],
              [("count", VInt 3); ("tags", VList [VStr "x"; VStr "y"])])).
Proof. reflexivity. Qed.

Example merge_array_remove :
  _apply_transformations id_order 2
    [("tags", VList [VStr "x"; VStr "y"; VStr "z"])]
    [("tags", ArrayRemove [VStr "y"])]
  = Some (Ok ([("tags", VList [VStr "x"; VStr "z"])],
              [("tags", VList [VStr "x"; VStr "z"])])).
Proof. reflexivity. Qed.

Example merge_new_nested_field :
  _apply_transformations id_order 3 []
    [("a", VDict [("b", Maximum (VInt 5))])]
  = Some (Ok ([("a", VDict [("b", VInt 5)])], [("a", VDict [("b", VInt 5)])])).
Proof. reflexivity. Qed.

Example set_of_equal_numbers :
  py_set (VList [VInt 1; VBool true; VFloat (S754_finite false 4503599627370496 (-52))])
  = Ok [VInt 1].
Proof. reflexivity. Qed.

Example float_of_int_rounds_or_overflows :
  float_of_int (2 ^ 1024 - 2 ^ 970 - 1)
  = Ok (S754_finite false 9007199254740991 971) /\
  float_of_int (2 ^ 1024 - 2 ^ 970) = Raise OverflowError.
Proof. split; vm_compute; reflexivity. Qed.

(** * Further properties of the module *)

(** ** Writes into the payload *)

Lemma dict_get_set_other (k k' : string) (v : value) (d : dict) :
  k <> k' -> dict_get k (dict_set k' v d) = dict_get k d.
Proof.
  intros Hne; induction d as [|[k0 v0] d IH]; simpl.
  - destruct (String.eqb_spec k k'); [contradiction | reflexivity].
  - destruct (String.eqb_spec k' k0) as [->|Hk0]; simpl.
    + destruct (String.eqb_spec k k0); [contradiction | reflexivity].
    + destruct (String.eqb k k0); [reflexivity | exact IH].
Qed.

Lemma dict_get_None_keys (k : string) (d : dict) :
  dict_get k d = None <-> ~ In k (keys d).
Proof.
  induction d as [|[k0 v0] d IH]; simpl.
  - split; [intros _ [] | reflexivity].
  - destruct (String.eqb_spec k k0) as [->|Hne].
    + split; [discriminate | intros H; exfalso; apply H; now left].
    + rewrite IH. split.
      * intros H [E|Hin]; [now symmetry in E | contradiction].
      * intros H Hin; apply H; now right.
Qed.

Lemma in_keys_dict_set (x k : string) (v : value) (d : dict) :
  In x (keys (dict_set k v d)) <-> x = k \/ In x (keys d).
Proof.
  induction d as [|[k0 v0] d IH]; simpl.
  - split; [intros [<-|[]]; now left | intros [->|[]]; now left].
  - destruct (String.eqb_spec k k0) as [->|Hne]; simpl.
    + split; [intros [<-|H]; right; [now left | now right] |
              intros [->|[<-|H]]; [now left | now left | now right]].
    + rewrite IH. split.
      * intros [<-|[->|H]]; [right; now left | now left | right; now right].
      * intros [->|[<-|H]]; [right; now left | now left | right; now right].
Qed.

Lemma NoDup_keys_dict_set (k : string) (v : value) (d : dict) :
  NoDup (keys d) -> NoDup (keys (dict_set k v d)).
Proof.
  induction d as [|[k0 v0] d IH]; simpl; intros H.
  - constructor; [intros [] | constructor].
  - inversion H as [|? ? Hk0 Hd]; subst.
    destruct (String.eqb_spec k k0) as [->|Hne]; simpl.
    + now constructor.
    + constructor; [|now apply IH].
      rewrite in_keys_dict_set. intros [E|Hin]; [now symmetry in E | contradiction].
Qed.

(** A write changes the top level of the payload by one assignment. *)
Lemma set_by_path_top (path : list string) (v : value) (d d' : dict) :
  set_by_path d path v = Ok d' ->
  exists k x, d' = dict_set k x d.
Proof.
  destruct path as [|k [|k' rest]]; simpl; intros H.
  - discriminate.
  - injection H as <-; now exists k, v.
  - destruct (dict_get k d) as [[]|]; try discriminate;
      match type of H with
      | (sub <- ?r ;; _) = _ => destruct r as [sub|]; simpl in H; [|discriminate]
      end;
      injection H as <-; now exists k, (VDict sub).
Qed.

(** The value written is read back at the same path. *)
Lemma get_set_by_path (path : list string) (v : value) :
  forall d d', set_by_path d path v = Ok d' ->
               get_by_path (VDict d') path = Ok v.
Proof.
  induction path as [|k rest IH]; intros d d' H; [discriminate|].
  destruct rest as [|k' rest'].
  - simpl in H; injection H as <-. simpl. now rewrite dict_get_set_same.
  - change (set_by_path d (k :: k' :: rest') v)
      with (match dict_get k d with
            | None => sub <- set_by_path [] (k' :: rest') v ;;
                      Ok (dict_set k (VDict sub) d)
            | Some (VDict d0) => sub <- set_by_path d0 (k' :: rest') v ;;
                                 Ok (dict_set k (VDict sub) d)
            | Some _ => Raise TypeError
            end) in H.
    destruct (dict_get k d) as [[]|]; try discriminate;
      match type of H with
      | (sub <- ?r ;; _) = _ =>
          destruct r as [sub|] eqn:Hs; simpl in H; [|discriminate]
      end;
      injection H as <-;
      change (get_by_path (VDict (dict_set k (VDict sub) d)) (k :: k' :: rest'))
        with (match dict_get k (dict_set k (VDict sub) d) with
              | Some x => get_by_path x (k' :: rest')
              | None => Raise KeyError
              end);
      rewrite dict_get_set_same; eapply IH; eassumption.
Qed.

(** A write into an empty dict creates the whole path. *)
Lemma set_by_path_fresh (path : list string) (v : value) :
  path <> [] -> exists d', set_by_path [] path v = Ok d'.
Proof.
  induction path as [|k rest IH]; intros Hne; [congruence|].
  destruct rest as [|k' rest'].
  - eexists; reflexivity.
  - destruct IH as [sub Hsub]; [discriminate|].
    change (set_by_path [] (k :: k' :: rest') v)
      with (sub0 <- set_by_path [] (k' :: rest') v ;;
            Ok (dict_set k (VDict sub0) [])).
    rewrite Hsub. eexists; reflexivity.
Qed.

(** ** One instruction under a top-level key *)

Lemma Transform_not_dict (v : value) :
  isinstance_Transform v = true -> is_dict v = false.
Proof. destruct v; try discriminate; reflexivity. Qed.

Lemma loop_body_one (set_order : list value -> list value) (document : dict)
    (k : string) (v nv : value) :
  dot_free k = true ->
  isinstance_Transform v = true ->
  call set_order v document [k] = Ok nv ->
  loop_body set_order document k v (mk_state [(k, v)] [] [])
  = Ok (mk_state [(k, nv)] (increments_of k v) (arr_unions_of k v)).
Proof.
  intros Hk Hv Hc. unfold loop_body.
  rewrite (split_dot_dot_free _ Hk), Hv, Hc.
  cbn [bind data set_by_path dict_set]. rewrite String.eqb_refl.
  destruct v; try discriminate; reflexivity.
Qed.

Lemma first_pass_one (set_order : list value -> list value) (f : nat)
    (document : dict) (k : string) (v nv : value) :
  dot_free k = true ->
  isinstance_Transform v = true ->
  call set_order v document [k] = Ok nv ->
  first_pass set_order (S (S f)) document [(k, v)]
  = Some (Ok (mk_state [(k, nv)] (increments_of k v) (arr_unions_of k v))).
Proof.
  intros Hk Hv Hc. unfold first_pass.
  rewrite (iterator_leaf _ data (loop_body set_order document) (S f) [] 0%nat
             1%nat _ [(k, v)] k v);
    try reflexivity; [|now apply Transform_not_dict].
  change (join_dot ([] ++ [k])) with k.
  rewrite (loop_body_one set_order document k v nv Hk Hv Hc).
  apply (iterator_stop _ data (loop_body set_order document) f [] 1%nat 1%nat
           _ [(k, nv)]); reflexivity.
Qed.

(** The second pass after one instruction rewrites the same value. *)
Lemma second_pass_one (set_order : list value -> list value)
    (document : dict) (k : string) (v nv : value) :
  dot_free k = true ->
  isinstance_Transform v = true ->
  call set_order v document [k] = Ok nv ->
  _update_data_with_firestore_transforms document (increments_of k v)
    (VInt 0) [(k, nv)] = Ok [(k, nv)] /\
  _update_data_with_firestore_transforms document (arr_unions_of k v)
    (VList []) [(k, nv)] = Ok [(k, nv)].
Proof.
  intros Hk Hv Hc.
  assert (Hset : set_by_path [(k, nv)] [k] nv = Ok [(k, nv)])
    by (simpl; now rewrite String.eqb_refl).
  destruct v; try discriminate; simpl in Hc;
    cbn [increments_of arr_unions_of _update_data_with_firestore_transforms];
    rewrite ?(split_dot_dot_free _ Hk); split; try reflexivity.
  - unfold ArrayUnion_call in Hc.
    destruct (except_TypeError_KeyError (get_by_path (VDict document) [k])
                (VList [])) as [item|e]; [|discriminate].
    cbn [bind] in Hc |- *. rewrite Hc. cbn [bind]. now rewrite Hset.
  - unfold Increment_call in Hc.
    destruct (except_TypeError_KeyError (get_by_path (VDict document) [k])
                (VInt 0)) as [item|e]; [|discriminate].
    cbn [bind] in Hc |- *. rewrite Hc. cbn [bind]. now rewrite Hset.
Qed.

Lemma merge_one (set_order : list value -> list value)
    (f : nat) (document : dict) (k : string) (v nv : value) :
  dot_free k = true ->
  isinstance_Transform v = true ->
  call set_order v document [k] = Ok nv ->
  _apply_transformations set_order (S (S f)) document [(k, v)]
  = Some (Ok (dict_set k nv document, [(k, nv)])).
Proof.
  intros Hk Hv Hc. unfold _apply_transformations.
  rewrite (first_pass_one set_order f document k v nv Hk Hv Hc).
  cbn [data increments arr_unions].
  destruct (second_pass_one set_order document k v nv Hk Hv Hc) as [-> E].
  cbn [bind]. rewrite E. reflexivity.
Qed.

(** Merging one instruction under a top-level key without a dot assigns
    the instruction's value to that key of the document, in place when
    the key exists and as a new last key otherwise, and leaves every
    other key as it was; the payload ends as [{k: value}]. *)
Theorem merge_one_instruction (set_order : list value -> list value)
    (f : nat) (document : dict) (k : string) (v nv : value) :
  dot_free k = true ->
  isinstance_Transform v = true ->
  call set_order v document [k] = Ok nv ->
  _apply_transformations set_order (S (S f)) document [(k, v)]
  = Some (Ok (dict_set k nv document, [(k, nv)])) /\
  dict_get k (dict_set k nv document) = Some nv /\
  (forall k', k' <> k ->
     dict_get k' (dict_set k nv document) = dict_get k' document).
Proof.
  intros Hk Hv Hc. split; [|split].
  - now apply merge_one.
  - apply dict_get_set_same.
  - intros k' Hne; now apply dict_get_set_other.
Qed.

Lemma merge_one_instruction_witness :
  _apply_transformations id_order 2
    [("name", VStr "n"); ("hits", VInt 4)] [("hits", Minimum (VInt 3))]
  = Some (Ok (dict_set "hits" (VInt 3) [("name", VStr "n"); ("hits", VInt 4)],
              [("hits", VInt 3)])).
Proof.
  exact (proj1 (merge_one_instruction id_order 0
                  [("name", VStr "n"); ("hits", VInt 4)] "hits"
                  (Minimum (VInt 3)) (VInt 3) eq_refl eq_refl eq_refl)).
Defined.

Lemma merge_one_raise (set_order : list value -> list value)
    (f : nat) (document : dict) (k : string) (v : value) (e : exn) :
  isinstance_Transform v = true ->
  call set_order v document (split_dot k) = Raise e ->
  _apply_transformations set_order (S f) document [(k, v)] = Some (Raise e).
Proof.
  intros Hv Hc. unfold _apply_transformations, first_pass.
  rewrite (iterator_leaf _ data (loop_body set_order document) f [] 0%nat
             1%nat _ [(k, v)] k v);
    try reflexivity; [|now apply Transform_not_dict].
  change (join_dot ([] ++ [k])) with k.
  unfold loop_body. rewrite Hv, Hc. reflexivity.
Qed.

(** Whatever the key, dotted or not, a successful run of the loop body on
    an instruction leaves the instruction's value in the payload at
    [key.split(".")]. *)
Theorem loop_body_writes_at_split_key (set_order : list value -> list value)
    (document : dict) (key : string) (v : value) (st st' : loop_state) :
  isinstance_Transform v = true ->
  loop_body set_order document key v st = Ok st' ->
  exists nv,
    call set_order v document (split_dot key) = Ok nv /\
    get_by_path (VDict (data st')) (split_dot key) = Ok nv.
Proof.
  intros Hv H. destruct st as [T incs unions].
  destruct (loop_body_ok _ _ _ _ _ _ _ _ H)
    as (nv & [(_ & Hc & Hs) | (Hv' & _)] & _); [|congruence].
  exists nv; split; [exact Hc|]. eapply get_set_by_path; eassumption.
Qed.

Lemma loop_body_writes_at_split_key_witness :
  exists nv,
    call id_order (Maximum (VInt 5)) [] (split_dot "a.b") = Ok nv /\
    get_by_path
      (VDict [("a.b", Maximum (VInt 5)); ("a", VDict [("b", VInt 5)])])
      (split_dot "a.b") = Ok nv.
Proof.
  exact (loop_body_writes_at_split_key id_order [] "a.b" (Maximum (VInt 5))
           (mk_state [("a.b", Maximum (VInt 5))] [] [])
           (mk_state [("a.b", Maximum (VInt 5)); ("a", VDict [("b", VInt 5)])]
              [] [])
           eq_refl eq_refl).
Defined.

(** ** A current value of the wrong type *)

(** Increment adds its operand to whatever the path holds: a current
    value that is not a number makes [item + self.value] raise
    [TypeError], in the call and in the merge (Maximum and Minimum
    overwrite such a value instead). *)
Theorem Increment_over_non_number (set_order : list value -> list value)
    (n c : value) (document : dict) :
  isinstance_int_float n = true ->
  isinstance_int_float c = false ->
  (forall path, get_by_path (VDict document) path = Ok c ->
     Increment_call n document path = Raise TypeError) /\
  (forall f k, get_by_path (VDict document) (split_dot k) = Ok c ->
     _apply_transformations set_order (S f) document [(k, Increment n)]
     = Some (Raise TypeError)).
Proof.
  intros Hn Hc.
  assert (H : forall path, get_by_path (VDict document) path = Ok c ->
                Increment_call n document path = Raise TypeError).
  { intros path Hg. unfold Increment_call. rewrite Hg; cbn [except_TypeError_KeyError bind].
    destruct c; try discriminate; destruct n; try discriminate; reflexivity. }
  split; [exact H|].
  intros f k Hg. apply merge_one_raise; [reflexivity | now apply H].
Qed.

Lemma Increment_over_non_number_witness :
  Increment_call (VInt 1) [("n", VStr "3")] ["n"] = Raise TypeError /\
  _apply_transformations id_order 1 [("n", VStr "3")] [("n", Increment (VInt 1))]
  = Some (Raise TypeError).
Proof.
  pose proof (Increment_over_non_number id_order (VInt 1) (VStr "3")
                [("n", VStr "3")] eq_refl eq_refl) as [H1 H2].
  split; [exact (H1 ["n"] eq_refl) | exact (H2 0%nat "n" eq_refl)].
Defined.

(** ArrayUnion concatenates: a current value that is not a list makes
    [item + self.values] raise [TypeError], in the call and in the merge. *)
Theorem ArrayUnion_over_non_list (set_order : list value -> list value)
    (values : list value) (c : value) (document : dict) :
  is_list c = false ->
  (forall path, get_by_path (VDict document) path = Ok c ->
     ArrayUnion_call values document path = Raise TypeError) /\
  (forall f k, get_by_path (VDict document) (split_dot k) = Ok c ->
     _apply_transformations set_order (S f) document [(k, ArrayUnion values)]
     = Some (Raise TypeError)).
Proof.
  intros Hc.
  assert (H : forall path, get_by_path (VDict document) path = Ok c ->
                ArrayUnion_call values document path = Raise TypeError).
  { intros path Hg. unfold ArrayUnion_call. rewrite Hg; cbn [except_TypeError_KeyError bind].
    destruct c; try discriminate; reflexivity. }
  split; [exact H|].
  intros f k Hg. apply merge_one_raise; [reflexivity | now apply H].
Qed.

Lemma ArrayUnion_over_non_list_witness :
  ArrayUnion_call [VInt 1] [("tags", VStr "x")] ["tags"] = Raise TypeError /\
  _apply_transformations id_order 1 [("tags", VStr "x")]
    [("tags", ArrayUnion [VInt 1])] = Some (Raise TypeError).
Proof.
  pose proof (ArrayUnion_over_non_list id_order [VInt 1] (VStr "x")
                [("tags", VStr "x")] eq_refl) as [H1 H2].
  split; [exact (H1 ["tags"] eq_refl) | exact (H2 0%nat "tags" eq_refl)].
Defined.

Lemma chars_hashable (s : string) : forallb hashable (chars s) = true.
Proof. induction s as [|c s IH]; simpl; [reflexivity | exact IH]. Qed.

Lemma keys_hashable (d : dict) :
  forallb hashable (map (fun kv => VStr (fst kv)) d) = true.
Proof. induction d as [|[k v] d IH]; simpl; [reflexivity | exact IH]. Qed.

(** ArrayRemove builds [set(item)] from whatever the path holds: a value
    that is not iterable (None, a number, an instruction) raises
    [TypeError]; a string is taken as the list of its characters and a
    mapping as the list of its keys. *)
Theorem ArrayRemove_over_non_list (set_order : list value -> list value)
    (values : list value) (document : dict) (path : list string) :
  (forall l, Permutation (set_order l) l) ->
  (forall c, get_by_path (VDict document) path = Ok c ->
     iterable c = false ->
     ArrayRemove_call set_order values document path = Raise TypeError) /\
  (forall s, get_by_path (VDict document) path = Ok (VStr s) ->
     forallb hashable values = true ->
     exists res,
       ArrayRemove_call set_order values document path = Ok (VList res) /\
       incl res (chars s) /\
       forall x, py_in x res = py_in x (chars s) && negb (py_in x values)) /\
  (forall d, get_by_path (VDict document) path = Ok (VDict d) ->
     forallb hashable values = true ->
     exists res,
       ArrayRemove_call set_order values document path = Ok (VList res) /\
       forall x, py_in x res
                 = py_in x (map (fun kv => VStr (fst kv)) d)
                   && negb (py_in x values)).
Proof.
  intros Hperm; split; [|split].
  - intros c Hg Hc. unfold ArrayRemove_call, py_set. rewrite Hg; simpl.
    destruct c; try discriminate; reflexivity.
  - intros s Hg Hv. unfold ArrayRemove_call, py_set. rewrite Hg; simpl.
    rewrite chars_hashable, Hv; simpl.
    eexists; split; [reflexivity|]; split.
    + intros x Hx. apply (Permutation_in _ (Hperm _)) in Hx.
      apply filter_In in Hx as [Hx _]. now apply set_add_all_incl in Hx.
    + intros x. rewrite (py_in_perm x _ _ (Hperm _)).
      rewrite set_difference_in, !set_add_all_in; reflexivity.
  - intros d Hg Hv. unfold ArrayRemove_call, py_set. rewrite Hg; simpl.
    rewrite keys_hashable, Hv; simpl.
    eexists; split; [reflexivity|].
    intros x. rewrite (py_in_perm x _ _ (Hperm _)).
    rewrite set_difference_in, !set_add_all_in; reflexivity.
Qed.

Lemma ArrayRemove_over_non_list_witness :
  ArrayRemove_call id_order [VStr "y"] [("n", VInt 3)] ["n"] = Raise TypeError /\
  exists res,
    ArrayRemove_call id_order [VStr "b"] [("s", VStr "abca")] ["s"]
    = Ok (VList res) /\
    incl res (chars "abca") /\
    forall x, py_in x res = py_in x (chars "abca") && negb (py_in x [VStr "b"]).
Proof.
  split.
  - exact (proj1 (ArrayRemove_over_non_list id_order [VStr "y"]
                    [("n", VInt 3)] ["n"] id_order_perm) (VInt 3) eq_refl eq_refl).
  - exact (proj1 (proj2 (ArrayRemove_over_non_list id_order [VStr "b"]
                    [("s", VStr "abca")] ["s"] id_order_perm))
             "abca" eq_refl eq_refl).
Defined.

(** ** Merging twice *)

Lemma get_by_path_top (document : dict) (k : string) :
  get_by_path (VDict document) [k]
  = match dict_get k document with
    | Some v => Ok v
    | None => Raise KeyError
    end.
Proof. reflexivity. Qed.

(** Two merges of Increment on an integer field add up: merging
    Increment(a) and then Increment(b) leaves the document that one merge
    of Increment(a + b) leaves, with [c + a + b] at the key ([c] is 0 for
    an absent key). *)
Theorem Increment_merges_add_up (set_order : list value -> list value)
    (f : nat) (document : dict) (k : string) (c a b : Z) :
  dot_free k = true ->
  dict_get k document = Some (VInt c) \/
  dict_get k document = None /\ c = 0 ->
  exists d1 d2 p1 p2 p3,
    _apply_transformations set_order (S (S f)) document
      [(k, Increment (VInt a))] = Some (Ok (d1, p1)) /\
    _apply_transformations set_order (S (S f)) d1
      [(k, Increment (VInt b))] = Some (Ok (d2, p2)) /\
    _apply_transformations set_order (S (S f)) document
      [(k, Increment (VInt (a + b)))] = Some (Ok (d2, p3)) /\
    dict_get k d2 = Some (VInt (c + a + b)).
Proof.
  intros Hk Hget.
  assert (H1 : forall x, call set_order (Increment (VInt x)) document [k]
                         = Ok (VInt (c + x))).
  { intros x. cbn [call]. unfold Increment_call. rewrite get_by_path_top.
    destruct Hget as [-> | [-> ->]]; reflexivity. }
  set (d1 := dict_set k (VInt (c + a)) document).
  assert (H2 : call set_order (Increment (VInt b)) d1 [k]
               = Ok (VInt (c + a + b))).
  { cbn [call]. unfold Increment_call. rewrite get_by_path_top.
    unfold d1; now rewrite dict_get_set_same. }
  exists d1, (dict_set k (VInt (c + a + b)) d1),
    [(k, VInt (c + a))], [(k, VInt (c + a + b))], [(k, VInt (c + a + b))].
  split; [apply merge_one; auto|].
  split; [apply merge_one; auto|].
  split.
  - unfold d1. rewrite dict_set_set.
    replace (c + a + b) with (c + (a + b)) by lia.
    apply merge_one; auto.
  - apply dict_get_set_same.
Qed.

Lemma Increment_merges_add_up_witness :
  exists d1 d2 p1 p2 p3,
    _apply_transformations id_order 2 [("n", VInt 10)]
      [("n", Increment (VInt 2))] = Some (Ok (d1, p1)) /\
    _apply_transformations id_order 2 d1
      [("n", Increment (VInt 3))] = Some (Ok (d2, p2)) /\
    _apply_transformations id_order 2 [("n", VInt 10)]
      [("n", Increment (VInt (2 + 3)))] = Some (Ok (d2, p3)) /\
    dict_get "n" d2 = Some (VInt (10 + 2 + 3)).
Proof.
  apply (Increment_merges_add_up id_order 0 [("n", VInt 10)] "n" 10 2 3).
  - reflexivity.
  - left; reflexivity.
Defined.

(** Two merges of ArrayUnion concatenate: merging ArrayUnion(v1) and then
    ArrayUnion(v2) leaves the document that one merge of
    ArrayUnion(v1 + v2) leaves. *)
Theorem ArrayUnion_merges_concatenate (set_order : list value -> list value)
    (f : nat) (document : dict) (k : string) (current v1 v2 : list value) :
  dot_free k = true ->
  dict_get k document = Some (VList current) \/
  dict_get k document = None /\ current = [] ->
  exists d1 d2 p1 p2 p3,
    _apply_transformations set_order (S (S f)) document
      [(k, ArrayUnion v1)] = Some (Ok (d1, p1)) /\
    _apply_transformations set_order (S (S f)) d1
      [(k, ArrayUnion v2)] = Some (Ok (d2, p2)) /\
    _apply_transformations set_order (S (S f)) document
      [(k, ArrayUnion (v1 ++ v2))] = Some (Ok (d2, p3)) /\
    dict_get k d2 = Some (VList (current ++ v1 ++ v2)).
Proof.
  intros Hk Hget.
  assert (H1 : forall x, call set_order (ArrayUnion x) document [k]
                         = Ok (VList (current ++ x))).
  { intros x. cbn [call]. unfold ArrayUnion_call. rewrite get_by_path_top.
    destruct Hget as [-> | [-> ->]]; reflexivity. }
  set (d1 := dict_set k (VList (current ++ v1)) document).
  assert (H2 : call set_order (ArrayUnion v2) d1 [k]
               = Ok (VList (current ++ v1 ++ v2))).
  { cbn [call]. unfold ArrayUnion_call. rewrite get_by_path_top.
    unfold d1; rewrite dict_get_set_same; simpl. now rewrite <- app_assoc. }
  exists d1, (dict_set k (VList (current ++ v1 ++ v2)) d1),
    [(k, VList (current ++ v1))], [(k, VList (current ++ v1 ++ v2))],
    [(k, VList (current ++ v1 ++ v2))].
  split; [apply merge_one; auto|].
  split; [apply merge_one; auto|].
  split.
  - unfold d1. rewrite dict_set_set. apply merge_one; auto.
  - apply dict_get_set_same.
Qed.

Lemma ArrayUnion_merges_concatenate_witness :
  exists d1 d2 p1 p2 p3,
    _apply_transformations id_order 2 []
      [("tags", ArrayUnion [VStr "a"])] = Some (Ok (d1, p1)) /\
    _apply_transformations id_order 2 d1
      [("tags", ArrayUnion [VStr "b"])] = Some (Ok (d2, p2)) /\
    _apply_transformations id_order 2 []
      [("tags", ArrayUnion ([VStr "a"] ++ [VStr "b"]))] = Some (Ok (d2, p3)) /\
    dict_get "tags" d2 = Some (VList ([] ++ [VStr "a"] ++ [VStr "b"])).
Proof.
  apply (ArrayUnion_merges_concatenate id_order 0 [] "tags" []
           [VStr "a"] [VStr "b"]).
  - reflexivity.
  - right; split; reflexivity.
Defined.

(** The value Maximum(n) returns is a number that [n] does not exceed,
    and the value Minimum(n) returns is a number that [n] does not
    undercut. *)
Lemma Maximum_call_bound (n r : value) (document : dict) (path : list string) :
  isinstance_int_float n = true ->
  Maximum_call n document path = Ok r ->
  isinstance_int_float r = true /\ num_gt n r = Ok false.
Proof.
  intros Hn H. unfold Maximum_call in H.
  destruct (num_gt_irrefl n Hn) as [Gn _].
  destruct (get_by_path (VDict document) path) as [c|e] eqn:Hg.
  - cbn [bind except_TypeError_KeyError] in H.
    destruct (isinstance_int_float c) eqn:Hc.
    + unfold py_max in H.
      destruct (num_gt_numbers n c Hn Hc) as (x & y & _ & _ & E & _).
      rewrite E in H; cbn [bind] in H.
      destruct (match xnum_compare x y with Some Gt => true | _ => false end);
        injection H as <-; auto.
    + injection H as <-; auto.
  - destruct (get_by_path_raises _ _ _ Hg) as [-> | ->];
      cbn [bind except_TypeError_KeyError] in H; injection H as <-; auto.
Qed.

Lemma Minimum_call_bound (n r : value) (document : dict) (path : list string) :
  isinstance_int_float n = true ->
  Minimum_call n document path = Ok r ->
  isinstance_int_float r = true /\ num_lt n r = Ok false.
Proof.
  intros Hn H. unfold Minimum_call in H.
  destruct (num_gt_irrefl n Hn) as [_ Ln].
  destruct (get_by_path (VDict document) path) as [c|e] eqn:Hg.
  - cbn [bind except_TypeError_KeyError] in H.
    destruct (isinstance_int_float c) eqn:Hc.
    + unfold py_min in H.
      destruct (num_gt_numbers n c Hn Hc) as (x & y & _ & _ & _ & E).
      rewrite E in H; cbn [bind] in H.
      destruct (match xnum_compare x y with Some Lt => true | _ => false end);
        injection H as <-; auto.
    + injection H as <-; auto.
  - destruct (get_by_path_raises _ _ _ Hg) as [-> | ->];
      cbn [bind except_TypeError_KeyError] in H; injection H as <-; auto.
Qed.

Lemma Maximum_call_total (n : value) (document : dict) (path : list string) :
  isinstance_int_float n = true ->
  exists r, Maximum_call n document path = Ok r.
Proof.
  intros Hn. unfold Maximum_call.
  destruct (get_by_path (VDict document) path) as [c|e] eqn:Hg.
  - cbn [bind except_TypeError_KeyError].
    destruct (isinstance_int_float c) eqn:Hc; [|eexists; reflexivity].
    unfold py_max. destruct (num_gt_numbers n c Hn Hc) as (x & y & _ & _ & -> & _).
    eexists; reflexivity.
  - destruct (get_by_path_raises _ _ _ Hg) as [-> | ->]; eexists; reflexivity.
Qed.

Lemma Minimum_call_total (n : value) (document : dict) (path : list string) :
  isinstance_int_float n = true ->
  exists r, Minimum_call n document path = Ok r.
Proof.
  intros Hn. unfold Minimum_call.
  destruct (get_by_path (VDict document) path) as [c|e] eqn:Hg.
  - cbn [bind except_TypeError_KeyError].
    destruct (isinstance_int_float c) eqn:Hc; [|eexists; reflexivity].
    unfold py_min. destruct (num_gt_numbers n c Hn Hc) as (x & y & _ & _ & _ & ->).
    eexists; reflexivity.
  - destruct (get_by_path_raises _ _ _ Hg) as [-> | ->]; eexists; reflexivity.
Qed.

(** Merging Maximum(n), or Minimum(n), is idempotent, whatever the
    document holds at the key: the merge always returns, and a second
    merge of the same instruction returns the same document. *)
Theorem Maximum_Minimum_merge_idempotent (set_order : list value -> list value)
    (f : nat) (document : dict) (k : string) (n : value) :
  dot_free k = true ->
  isinstance_int_float n = true ->
  (exists d1 p1,
     _apply_transformations set_order (S (S f)) document [(k, Maximum n)]
     = Some (Ok (d1, p1)) /\
     _apply_transformations set_order (S (S f)) d1 [(k, Maximum n)]
     = Some (Ok (d1, p1))) /\
  (exists d1 p1,
     _apply_transformations set_order (S (S f)) document [(k, Minimum n)]
     = Some (Ok (d1, p1)) /\
     _apply_transformations set_order (S (S f)) d1 [(k, Minimum n)]
     = Some (Ok (d1, p1))).
Proof.
  intros Hk Hn; split.
  - destruct (Maximum_call_total n document [k] Hn) as [r Hr].
    destruct (Maximum_call_bound n r document [k] Hn Hr) as [Hnum Hgt].
    exists (dict_set k r document), [(k, r)].
    split; [apply merge_one; auto|].
    rewrite <- (dict_set_set k r r document) at 2.
    apply merge_one; auto.
    cbn [call]. unfold Maximum_call. rewrite get_by_path_top, dict_get_set_same.
    cbn [bind except_TypeError_KeyError]. rewrite Hnum.
    unfold py_max. now rewrite Hgt.
  - destruct (Minimum_call_total n document [k] Hn) as [r Hr].
    destruct (Minimum_call_bound n r document [k] Hn Hr) as [Hnum Hlt].
    exists (dict_set k r document), [(k, r)].
    split; [apply merge_one; auto|].
    rewrite <- (dict_set_set k r r document) at 2.
    apply merge_one; auto.
    cbn [call]. unfold Minimum_call. rewrite get_by_path_top, dict_get_set_same.
    cbn [bind except_TypeError_KeyError]. rewrite Hnum.
    unfold py_min. now rewrite Hlt.
Qed.

Lemma Maximum_Minimum_merge_idempotent_witness :
  exists d1 p1,
    _apply_transformations id_order 2 [("n", VInt 7)] [("n", Maximum (VInt 9))]
    = Some (Ok (d1, p1)) /\
    _apply_transformations id_order 2 d1 [("n", Maximum (VInt 9))]
    = Some (Ok (d1, p1)).
Proof.
  exact (proj1 (Maximum_Minimum_merge_idempotent id_order 0 [("n", VInt 7)]
                  "n" (VInt 9) eq_refl eq_refl)).
Defined.

Lemma num_compare_int_value (a b : value) (x y : Z) :
  int_value a = Some x -> int_value b = Some y ->
  num_gt a b = Ok (y <? x) /\ num_lt a b = Ok (x <? y).
Proof.
  intros Ha Hb.
  assert (E : xnum_of a = Some (XFin x 0) /\ xnum_of b = Some (XFin y 0)).
  { destruct a; try discriminate; destruct b; try discriminate;
      simpl in Ha, Hb; injection Ha as <-; injection Hb as <-; now split. }
  destruct E as [Ea Eb]. unfold num_gt, num_lt. rewrite Ea, Eb.
  cbn [xnum_compare]. unfold fin_compare.
  rewrite Z.min_id, Z.sub_diag, Z.pow_0_r, !Z.mul_1_r.
  rewrite Z.ltb_antisym, Z.leb_compare. unfold Z.ltb.
  destruct (x ?= y); split; reflexivity.
Qed.

Lemma int_value_number (a : value) (x : Z) :
  int_value a = Some x ->
  isinstance_int_float a = true /\ isinstance_float a = false.
Proof. destruct a; try discriminate; now split. Qed.

(** Maximum(lo) followed by Minimum(hi) clamps an integer field: with
    [lo <= hi], after the two merges the key holds an integer between
    [lo] and [hi], whatever it held before, as long as that was not a
    float. *)
Theorem Maximum_then_Minimum_clamps (set_order : list value -> list value)
    (f : nat) (document : dict) (k : string) (lo hi : Z) :
  dot_free k = true ->
  lo <= hi ->
  (forall c, dict_get k document = Some c -> isinstance_float c = false) ->
  exists d1 d2 p1 p2 v z,
    _apply_transformations set_order (S (S f)) document
      [(k, Maximum (VInt lo))] = Some (Ok (d1, p1)) /\
    _apply_transformations set_order (S (S f)) d1
      [(k, Minimum (VInt hi))] = Some (Ok (d2, p2)) /\
    dict_get k d2 = Some v /\ int_value v = Some z /\ lo <= z <= hi.
Proof.
  intros Hk Hle Hnf.
  (* the first merge leaves an integer not below [lo] *)
  assert (H1 : exists r1 z1,
    call set_order (Maximum (VInt lo)) document [k] = Ok r1 /\
    int_value r1 = Some z1 /\ lo <= z1).
  { cbn [call]. unfold Maximum_call. rewrite get_by_path_top.
    destruct (dict_get k document) as [c|] eqn:Hg.
    - cbn [bind except_TypeError_KeyError].
      destruct (isinstance_int_float c) eqn:Hc.
      + assert (Hz : exists zc, int_value c = Some zc).
        { specialize (Hnf c eq_refl).
          destruct c; try discriminate; eexists; reflexivity. }
        destruct Hz as [zc Hzc]. unfold py_max.
        destruct (num_compare_int_value (VInt lo) c lo zc eq_refl Hzc) as [-> _].
        cbn [bind]. destruct (Z.ltb_spec zc lo).
        * exists (VInt lo), lo; repeat split; lia.
        * exists c, zc; repeat split; auto.
      + exists (VInt lo), lo; repeat split; lia.
    - exists (VInt lo), lo; repeat split; lia. }
  destruct H1 as (r1 & z1 & Hc1 & Hz1 & Hlo).
  set (d1 := dict_set k r1 document).
  assert (H2 : exists r2 z2,
    call set_order (Minimum (VInt hi)) d1 [k] = Ok r2 /\
    int_value r2 = Some z2 /\ lo <= z2 <= hi).
  { cbn [call]. unfold Minimum_call. rewrite get_by_path_top.
    unfold d1; rewrite dict_get_set_same.
    cbn [bind except_TypeError_KeyError].
    destruct (int_value_number r1 z1 Hz1) as [-> _]. unfold py_min.
    destruct (num_compare_int_value (VInt hi) r1 hi z1 eq_refl Hz1) as [_ ->].
    cbn [bind]. destruct (Z.ltb_spec hi z1).
    - exists (VInt hi), hi; repeat split; lia.
    - exists r1, z1; repeat split; auto. }
  destruct H2 as (r2 & z2 & Hc2 & Hz2 & Hbounds).
  exists d1, (dict_set k r2 d1), [(k, r1)], [(k, r2)], r2, z2.
  split; [apply merge_one; auto|].
  split; [apply merge_one; auto|].
  split; [apply dict_get_set_same | split; assumption].
Qed.

Lemma Maximum_then_Minimum_clamps_witness :
  exists d1 d2 p1 p2 v z,
    _apply_transformations id_order 2 [("n", VInt 42)]
      [("n", Maximum (VInt 0))] = Some (Ok (d1, p1)) /\
    _apply_transformations id_order 2 d1
      [("n", Minimum (VInt 10))] = Some (Ok (d2, p2)) /\
    dict_get "n" d2 = Some v /\ int_value v = Some z /\ 0 <= z <= 10.
Proof.
  apply (Maximum_then_Minimum_clamps id_order 0 [("n", VInt 42)] "n" 0 10).
  - reflexivity.
  - lia.
  - intros c [= <-]; reflexivity.
Defined.

(** ** ArrayRemove after ArrayUnion, and ArrayRemove twice *)

Lemma hashable_incl (s t : list value) :
  incl s t -> forallb hashable t = true -> forallb hashable s = true.
Proof.
  intros Hincl Ht. apply forallb_forall. intros x Hx.
  rewrite forallb_forall in Ht. apply Ht, Hincl, Hx.
Qed.

Lemma py_eq_refl_of (x y : value) : py_eq x y = true -> py_eq x x = true.
Proof.
  intros H. apply py_eq_trans with y; [exact H|]. now rewrite py_eq_sym.
Qed.

(** A list without two equal elements is its own set. *)
Lemma set_add_all_no_repeat (l seen : list value) :
  (forall x, count x (seen ++ l) <= 1)%nat ->
  set_add_all l seen = seen ++ l.
Proof.
  revert seen; induction l as [|y l IH]; intros seen H; simpl.
  - now rewrite app_nil_r.
  - destruct (py_in y seen) eqn:Hy.
    + exfalso. specialize (H y). rewrite count_app in H.
      pose proof (count_pos_in y seen Hy) as Hpos.
      assert (Hyy : py_eq y y = true).
      { unfold py_in in Hy. apply existsb_exists in Hy as (s & _ & Hs).
        now apply py_eq_refl_of with s. }
      unfold count at 2 in H; simpl in H. rewrite Hyy in H; simpl in H. lia.
    + rewrite IH; [now rewrite <- app_assoc|].
      intros x. rewrite <- app_assoc. apply H.
Qed.

Lemma filter_all (A : Type) (p : A -> bool) (l : list A) :
  (forall x, In x l -> p x = true) -> filter p l = l.
Proof.
  induction l as [|y l IH]; intros H; simpl; [reflexivity|].
  rewrite (H y (or_introl eq_refl)), IH; [reflexivity|].
  intros x Hx; apply H; now right.
Qed.

Lemma ArrayRemove_call_top (set_order : list value -> list value)
    (values current : list value) (document : dict) (k : string) :
  dict_get k document = Some (VList current) ->
  forallb hashable current = true ->
  forallb hashable values = true ->
  call set_order (ArrayRemove values) document [k]
  = Ok (VList (set_order (set_difference (set_add_all current [])
                            (set_add_all values [])))).
Proof.
  intros Hg Hc Hv. cbn [call].
  apply ArrayRemove_call_list; auto. now rewrite get_by_path_top, Hg.
Qed.

(** Merging ArrayRemove(values) twice: the second merge finds nothing
    left to remove and no duplicate to collapse, and leaves a permutation
    of the list the first merge left, none of whose elements is in
    [values]. *)
Theorem ArrayRemove_merge_idempotent (set_order : list value -> list value)
    (f : nat) (document : dict) (k : string) (current values : list value) :
  (forall l, Permutation (set_order l) l) ->
  dot_free k = true ->
  dict_get k document = Some (VList current) ->
  forallb hashable current = true ->
  forallb hashable values = true ->
  exists d1 d2 p1 p2 res1 res2,
    _apply_transformations set_order (S (S f)) document
      [(k, ArrayRemove values)] = Some (Ok (d1, p1)) /\
    dict_get k d1 = Some (VList res1) /\
    _apply_transformations set_order (S (S f)) d1
      [(k, ArrayRemove values)] = Some (Ok (d2, p2)) /\
    dict_get k d2 = Some (VList res2) /\
    Permutation res2 res1 /\
    (forall x, In x res1 -> py_in x values = false).
Proof.
  intros Hperm Hk Hg Hc Hv.
  set (base := set_difference (set_add_all current []) (set_add_all values [])).
  set (res1 := set_order base).
  assert (Hcount : forall x, (count x res1 <= 1)%nat).
  { intros x. unfold res1. rewrite (count_perm x _ _ (Hperm _)).
    etransitivity; [apply set_difference_count|].
    apply set_add_all_count. intros y; unfold count; simpl; lia. }
  assert (Hout : forall x, In x res1 -> py_in x values = false).
  { intros x Hx. unfold res1 in Hx.
    apply (Permutation_in _ (Hperm _)) in Hx.
    apply filter_In in Hx as [_ Hx]. apply negb_true_iff in Hx.
    rewrite set_add_all_in in Hx. exact Hx. }
  assert (Hincl : incl res1 current).
  { intros x Hx. unfold res1 in Hx.
    apply (Permutation_in _ (Hperm _)) in Hx.
    apply filter_In in Hx as [Hx _]. now apply set_add_all_incl in Hx. }
  set (d1 := dict_set k (VList res1) document).
  assert (H2 : call set_order (ArrayRemove values) d1 [k]
               = Ok (VList (set_order res1))).
  { rewrite (ArrayRemove_call_top set_order values res1 d1 k);
      [| apply dict_get_set_same | now apply hashable_incl with current | exact Hv].
    rewrite (set_add_all_no_repeat res1 []) by exact Hcount.
    unfold set_difference; simpl. rewrite filter_all; [reflexivity|].
    intros x Hx. rewrite set_add_all_in; simpl. now rewrite (Hout x Hx). }
  exists d1, (dict_set k (VList (set_order res1)) d1),
    [(k, VList res1)], [(k, VList (set_order res1))], res1, (set_order res1).
  split; [apply merge_one; auto; now apply ArrayRemove_call_top|].
  split; [apply dict_get_set_same|].
  split; [apply merge_one; auto|].
  split; [apply dict_get_set_same|].
  split; [apply Hperm | exact Hout].
Qed.

Lemma ArrayRemove_merge_idempotent_witness :
  exists d1 d2 p1 p2 res1 res2,
    _apply_transformations id_order 2
      [("tags", VList [VStr "x"; VStr "y"; VStr "x"])]
      [("tags", ArrayRemove [VStr "y"])] = Some (Ok (d1, p1)) /\
    dict_get "tags" d1 = Some (VList res1) /\
    _apply_transformations id_order 2 d1
      [("tags", ArrayRemove [VStr "y"])] = Some (Ok (d2, p2)) /\
    dict_get "tags" d2 = Some (VList res2) /\
    Permutation res2 res1 /\
    (forall x, In x res1 -> py_in x [VStr "y"] = false).
Proof.
  apply (ArrayRemove_merge_idempotent id_order 0
           [("tags", VList [VStr "x"; VStr "y"; VStr "x"])] "tags"
           [VStr "x"; VStr "y"; VStr "x"] [VStr "y"]).
  - apply id_order_perm.
  - reflexivity.
  - reflexivity.
  - reflexivity.
  - reflexivity.
Defined.

(** ArrayRemove(values) merged after ArrayUnion(values) removes what was
    appended and every earlier occurrence: the key ends with the members
    of the original list that are not in [values]. *)
Theorem ArrayRemove_after_ArrayUnion (set_order : list value -> list value)
    (f : nat) (document : dict) (k : string) (current values : list value) :
  (forall l, Permutation (set_order l) l) ->
  dot_free k = true ->
  dict_get k document = Some (VList current) \/
  dict_get k document = None /\ current = [] ->
  forallb hashable current = true ->
  forallb hashable values = true ->
  exists d1 d2 p1 p2 res,
    _apply_transformations set_order (S (S f)) document
      [(k, ArrayUnion values)] = Some (Ok (d1, p1)) /\
    _apply_transformations set_order (S (S f)) d1
      [(k, ArrayRemove values)] = Some (Ok (d2, p2)) /\
    dict_get k d2 = Some (VList res) /\
    (forall x, py_in x res = py_in x current && negb (py_in x values)).
Proof.
  intros Hperm Hk Hg Hc Hv.
  assert (H1 : call set_order (ArrayUnion values) document [k]
               = Ok (VList (current ++ values))).
  { cbn [call]. unfold ArrayUnion_call. rewrite get_by_path_top.
    destruct Hg as [-> | [-> ->]]; reflexivity. }
  set (d1 := dict_set k (VList (current ++ values)) document).
  assert (H2 : call set_order (ArrayRemove values) d1 [k]
               = Ok (VList (set_order
                       (set_difference (set_add_all (current ++ values) [])
                          (set_add_all values [])))))
    by (apply ArrayRemove_call_top;
        [apply dict_get_set_same | now rewrite forallb_app, Hc, Hv | exact Hv]).
  eexists d1, _, _, _, _.
  split; [apply merge_one; eauto|].
  split; [apply merge_one; eauto|].
  split; [apply dict_get_set_same|].
  intros x. rewrite (py_in_perm x _ _ (Hperm _)).
  rewrite set_difference_in, !set_add_all_in; simpl. rewrite py_in_app.
  destruct (py_in x current), (py_in x values); reflexivity.
Qed.

Lemma ArrayRemove_after_ArrayUnion_witness :
  exists d1 d2 p1 p2 res,
    _apply_transformations id_order 2 [("tags", VList [VStr "x"; VStr "y"])]
      [("tags", ArrayUnion [VStr "y"; VStr "z"])] = Some (Ok (d1, p1)) /\
    _apply_transformations id_order 2 d1
      [("tags", ArrayRemove [VStr "y"; VStr "z"])] = Some (Ok (d2, p2)) /\
    dict_get "tags" d2 = Some (VList res) /\
    (forall x, py_in x res
               = py_in x [VStr "x"; VStr "y"]
                 && negb (py_in x [VStr "y"; VStr "z"])).
Proof.
  apply (ArrayRemove_after_ArrayUnion id_order 0
           [("tags", VList [VStr "x"; VStr "y"])] "tags"
           [VStr "x"; VStr "y"] [VStr "y"; VStr "z"]).
  - apply id_order_perm.
  - reflexivity.
  - left; reflexivity.
  - reflexivity.
  - reflexivity.
Defined.

(** ** The final [document.update(data)] *)

Section IteratorInvariant.

Variable S : Type.
Variable payload : S -> dict.
Variable body : string -> value -> S -> result S.
Variable P : S -> Prop.
Hypothesis body_keeps :
  forall key v st st', P st -> body key v st = Ok st' -> P st'.

(** What the loop body preserves holds when the loop ends. *)
Lemma iterator_invariant (fuel : nat) :
  forall (chain : list string) (pos used : nat) (st st' : S),
    P st ->
    get_document_iterator payload body fuel chain pos used st = Some (Ok st') ->
    P st'.
Proof.
  induction fuel as [|fuel IH]; intros chain pos used st st' HP H;
    [discriminate|].
  simpl in H.
  destruct (get_by_path (VDict (payload st)) chain) as [v|]; [|discriminate].
  destruct v; try discriminate.
  destruct (negb (Nat.eqb (List.length d) used)); [discriminate|].
  destruct (nth_error d pos) as [[k v]|]; [|now injection H as <-].
  destruct v;
    try (destruct (body (join_dot (chain ++ [k])) _ st) as [st1|] eqn:Hb;
         [eapply IH; [eapply body_keeps; eassumption | exact H] | discriminate]).
  destruct (get_document_iterator payload body fuel (chain ++ [k]) 0
              (List.length d0) st) as [[st1|e]|] eqn:Hc; try discriminate.
  eapply IH; [eapply IH; eassumption | exact H].
Qed.

End IteratorInvariant.

Lemma set_by_path_keys (path : list string) (v : value) (d d' : dict) :
  set_by_path d path v = Ok d' ->
  NoDup (keys d) ->
  NoDup (keys d') /\ incl (keys d) (keys d').
Proof.
  intros H Hnd. destruct (set_by_path_top _ _ _ _ H) as (k & x & ->).
  split; [now apply NoDup_keys_dict_set|].
  intros y Hy. apply in_keys_dict_set; now right.
Qed.

Lemma loop_body_keys (set_order : list value -> list value) (document : dict)
    (keys0 : list string) (key : string) (v : value) (st st' : loop_state) :
  NoDup (keys (data st)) /\ incl keys0 (keys (data st)) ->
  loop_body set_order document key v st = Ok st' ->
  NoDup (keys (data st')) /\ incl keys0 (keys (data st')).
Proof.
  intros [Hnd Hincl] H. destruct st as [T incs unions]; cbn [data] in *.
  destruct (loop_body_ok _ _ _ _ _ _ _ _ H)
    as (nv & [(_ & _ & Hs) | (_ & _ & ->)] & _); [|now split].
  destruct (set_by_path_keys _ _ _ _ Hs Hnd) as [Hnd' Hincl'].
  split; [exact Hnd' | now apply incl_tran with (keys T)].
Qed.

Lemma second_pass_keys (document new_values : dict) (default : value) :
  forall d d',
    _update_data_with_firestore_transforms document new_values default d
    = Ok d' ->
    NoDup (keys d) ->
    NoDup (keys d') /\ incl (keys d) (keys d').
Proof.
  induction new_values as [|[key op] rest IH]; intros d d' H Hnd; simpl in H.
  - injection H as <-; split; [exact Hnd | apply incl_refl].
  - destruct (except_TypeError_KeyError
                (get_by_path (VDict document) (split_dot key)) default)
      as [item|]; [|discriminate].
    cbn [bind] in H. destruct (py_add item op) as [s|]; [|discriminate].
    cbn [bind] in H.
    destruct (set_by_path d (split_dot key) s) as [d1|] eqn:Hs; [|discriminate].
    cbn [bind] in H.
    destruct (set_by_path_keys _ _ _ _ Hs Hnd) as [Hnd1 Hincl1].
    destruct (IH d1 d' H Hnd1) as [Hnd' Hincl'].
    split; [exact Hnd' | now apply incl_tran with (keys d1)].
Qed.

Lemma dict_update_get_other (k : string) (other : dict) :
  forall d, dict_get k other = None ->
            dict_get k (dict_update d other) = dict_get k d.
Proof.
  unfold dict_update.
  induction other as [|[k' v'] other IH]; intros d H; simpl in *; [reflexivity|].
  destruct (String.eqb_spec k k') as [->|Hne]; [discriminate|].
  rewrite (IH _ H). now apply dict_get_set_other.
Qed.

Lemma dict_update_get_in (k : string) (v : value) (other : dict) :
  forall d, NoDup (keys other) -> dict_get k other = Some v ->
            dict_get k (dict_update d other) = Some v.
Proof.
  induction other as [|[k' v'] other IH]; intros d Hnd H; simpl in H;
    [discriminate|].
  inversion Hnd as [|? ? Hk' Hnd']; subst.
  change (dict_update d ((k', v') :: other))
    with (dict_update (dict_set k' v' d) other).
  destruct (String.eqb_spec k k') as [->|Hne].
  - injection H as ->.
    rewrite dict_update_get_other by now apply dict_get_None_keys.
    apply dict_get_set_same.
  - now apply IH.
Qed.

(** The merge is shallow.  When it returns, the document is the old
    document updated with the top-level keys of the payload as the two
    passes left it: every key of that payload holds the payload's value,
    nested mappings included (what the document held below such a key is
    replaced as a whole), every other key of the document is untouched,
    and no top-level key of the payload received is missing. *)
Theorem merge_is_shallow_update (set_order : list value -> list value)
    (fuel : nat) (document data0 d' p' : dict) :
  distinct (keys data0) = true ->
  _apply_transformations set_order fuel document data0 = Some (Ok (d', p')) ->
  d' = dict_update document p' /\
  incl (keys data0) (keys p') /\
  (forall k v, dict_get k p' = Some v -> dict_get k d' = Some v) /\
  (forall k, dict_get k p' = None -> dict_get k d' = dict_get k document).
Proof.
  intros Hd H. apply distinct_NoDup in Hd.
  unfold _apply_transformations in H.
  destruct (first_pass set_order fuel document data0) as [[st|e]|] eqn:Hrun;
    try discriminate.
  assert (Hst : NoDup (keys (data st)) /\ incl (keys data0) (keys (data st))).
  { unfold first_pass in Hrun.
    apply (iterator_invariant loop_state data (loop_body set_order document)
             (fun st => NoDup (keys (data st))
                        /\ incl (keys data0) (keys (data st)))
             (loop_body_keys set_order document (keys data0))
             fuel [] 0%nat (List.length data0) (mk_state data0 [] []) st);
      [|exact Hrun].
    split; [exact Hd | apply incl_refl]. }
  destruct Hst as [Hnd Hincl].
  injection H as H.
  destruct (_update_data_with_firestore_transforms document (increments st)
              (VInt 0) (data st)) as [d1|] eqn:H1; [|discriminate].
  cbn [bind] in H.
  destruct (_update_data_with_firestore_transforms document (arr_unions st)
              (VList []) d1) as [d2|] eqn:H2; [|discriminate].
  cbn [bind] in H. injection H as <- <-.
  destruct (second_pass_keys _ _ _ _ _ H1 Hnd) as [Hnd1 Hincl1].
  destruct (second_pass_keys _ _ _ _ _ H2 Hnd1) as [Hnd2 Hincl2].
  split; [reflexivity|].
  split; [eapply incl_tran; [exact Hincl|]; eapply incl_tran; eassumption|].
  split.
  - intros k v Hk. now apply dict_update_get_in.
  - intros k Hk. now apply dict_update_get_other.
Qed.

Lemma merge_is_shallow_update_witness :
  let document := [("a", VDict [("x", VInt 1); ("y", VInt 2)]); ("b", VInt 0)] in
  let d' := [("a", VDict [("x", VInt 2)]); ("b", VInt 0)] in
  let p' := [("a", VDict [("x", VInt 2)])] in
  d' = dict_update document p' /\
  incl (keys [("a", VDict [("x", Increment (VInt 1))])]) (keys p') /\
  (forall k v, dict_get k p' = Some v -> dict_get k d' = Some v) /\
  (forall k, dict_get k p' = None -> dict_get k d' = dict_get k document).
Proof.
  exact (merge_is_shallow_update id_order 3
           [("a", VDict [("x", VInt 1); ("y", VInt 2)]); ("b", VInt 0)]
           [("a", VDict [("x", Increment (VInt 1))])]
           [("a", VDict [("x", VInt 2)]); ("b", VInt 0)]
           [("a", VDict [("x", VInt 2)])]
           eq_refl eq_refl).
Defined.

(** ** Payloads without instructions *)

Lemma plain_dict (d : dict) :
  plain (VDict d) = true ->
  NoDup (keys d) /\ forall k v, In (k, v) d -> plain v = true.
Proof.
  simpl; intros H; apply andb_prop in H as [Hd He]; split.
  - now apply distinct_NoDup.
  - clear Hd; induction d as [|[k' v'] d IH]; intros k v []; simpl in He;
      apply andb_prop in He as [Hv He].
    + now injection H as <- <-.
    + now apply IH with k.
Qed.

Lemma loop_body_plain (set_order : list value -> list value) (document : dict)
    (key : string) (v : value) (st : loop_state) :
  plain v = true -> is_dict v = false ->
  loop_body set_order document key v st = Ok st.
Proof. intros Hp Hd; destruct v; try discriminate; reflexivity. Qed.

Lemma iterate_plain (set_order : list value -> list value) (document : dict)
    (fuel : nat) :
  forall (T : dict) (chain : list string) (done todo incs unions : dict)
         (pos used : nat),
    get_by_path (VDict T) chain = Ok (VDict (done ++ todo)) ->
    NoDup (keys (done ++ todo)) ->
    (forall k v, In (k, v) todo -> plain v = true) ->
    (weight (VDict todo) <= fuel)%nat ->
    pos = List.length done ->
    used = List.length (done ++ todo) ->
    get_document_iterator data (loop_body set_order document) fuel chain
      pos used (mk_state T incs unions)
    = Some (Ok (mk_state T incs unions)).
Proof.
  induction fuel as [|fuel IH];
    intros T chain done todo incs unions pos used HT Hnd Htodo Hw Hpos Hused.
  { pose proof (weight_dict_pos todo); lia. }
  destruct todo as [|[k v] rest].
  - apply (iterator_stop _ data (loop_body set_order document) fuel chain
             pos used (mk_state T incs unions) (done ++ [])); auto.
    rewrite app_nil_r, Hpos. apply nth_error_None; lia.
  - assert (Hv : plain v = true) by (apply (Htodo k); now left).
    assert (Hk_done : ~ In k (keys done)).
    { rewrite keys_app in Hnd; simpl in Hnd. intros Hin.
      apply NoDup_remove_2 in Hnd. apply Hnd, in_or_app; now left. }
    assert (Hnth : nth_error (done ++ (k, v) :: rest) pos = Some (k, v)).
    { rewrite Hpos, nth_error_app2, Nat.sub_diag by lia; reflexivity. }
    rewrite weight_cons in Hw.
    pose proof (weight_dict_pos rest) as Hwr.
    assert (Hcont :
      get_document_iterator data (loop_body set_order document) fuel chain
        (S pos) used (mk_state T incs unions)
      = Some (Ok (mk_state T incs unions))).
    { apply (IH T chain (done ++ [(k, v)]) rest).
      - now rewrite <- app_assoc.
      - now rewrite <- app_assoc.
      - intros k' v' Hin; apply (Htodo k'); now right.
      - lia.
      - rewrite length_app; simpl; lia.
      - now rewrite <- app_assoc. }
    destruct (is_dict v) eqn:Hd.
    + destruct v as [| | | | | |sub| | | | |]; try discriminate.
      rewrite (iterator_dict _ data (loop_body set_order document) fuel chain
                 pos used (mk_state T incs unions) _ k sub HT (eq_sym Hused) Hnth).
      destruct (plain_dict _ Hv) as [Hnd_sub Hsub].
      rewrite (IH T (chain ++ [k]) [] sub incs unions 0%nat (List.length sub));
        auto; [|lia].
      rewrite get_by_path_app, HT; simpl.
      rewrite dict_get_app_r by assumption; simpl.
      now rewrite String.eqb_refl.
    + rewrite (iterator_leaf _ data (loop_body set_order document) fuel chain
                 pos used (mk_state T incs unions) _ k v HT (eq_sym Hused) Hnth Hd).
      now rewrite (loop_body_plain set_order document _ v _ Hv Hd).
Qed.

(** A payload without instructions is merged by [document.update] alone:
    the payload is returned as it came, and its top-level keys are
    assigned as they are written, so a dotted key of such a payload
    becomes a key of the document with a dot in it, not a nested path;
    instructions inside a list are not found and are stored as objects. *)
Theorem plain_payload_is_plain_update (set_order : list value -> list value)
    (fuel : nat) (document data0 : dict) :
  plain (VDict data0) = true ->
  (weight (VDict data0) <= fuel)%nat ->
  _apply_transformations set_order fuel document data0
  = Some (Ok (dict_update document data0, data0)).
Proof.
  intros Hp Hw. destruct (plain_dict _ Hp) as [Hnd Hent].
  unfold _apply_transformations, first_pass.
  rewrite (iterate_plain set_order document fuel data0 [] [] data0 [] []
             0%nat (List.length data0)); auto.
Qed.

Lemma plain_payload_is_plain_update_witness :
  _apply_transformations id_order 4 [("a", VDict [("b", VInt 1)])]
    [("a.b", VInt 5); ("l", VList [Increment (VInt 1)])]
  = Some (Ok (dict_update [("a", VDict [("b", VInt 1)])]
                [("a.b", VInt 5); ("l", VList [Increment (VInt 1)])],
              [("a.b", VInt 5); ("l", VList [Increment (VInt 1)])])).
Proof.
  apply (plain_payload_is_plain_update id_order 4
           [("a", VDict [("b", VInt 1)])]
           [("a.b", VInt 5); ("l", VList [Increment (VInt 1)])]).
  - reflexivity.
  - simpl; lia.
Defined.

(** ** An instruction under a dotted key *)

Lemma split_dot_head_dot_free (s : string) :
  forall h t, split_dot s = h :: t -> dot_free h = true.
Proof.
  induction s as [|c s IH]; simpl; intros h t H.
  - now injection H as <- _.
  - destruct (is_dot c) eqn:Hc.
    + now injection H as <- _.
    + destruct (split_dot s) as [|h' t'] eqn:Hs.
      * injection H as <- _. simpl. now rewrite Hc.
      * injection H as <- _. simpl. rewrite Hc. simpl. now apply IH with t'.
Qed.

Lemma split_dot_dotted (s : string) :
  dot_free s = false ->
  exists s1 s2 rest, split_dot s = s1 :: s2 :: rest /\ s1 <> s.
Proof.
  intros H.
  assert (E : exists s1 s2 rest, split_dot s = s1 :: s2 :: rest).
  { induction s as [|c s IH]; simpl in H |- *; [discriminate|].
    destruct (is_dot c) eqn:Hc; simpl in H.
    - destruct (split_dot s) as [|h t] eqn:Hs.
      + now apply split_dot_nonempty in Hs.
      + now exists EmptyString, h, t.
    - destruct (IH H) as (s1 & s2 & rest & ->).
      now exists (String c s1), s2, rest. }
  destruct E as (s1 & s2 & rest & E). exists s1, s2, rest; split; [exact E|].
  intros ->. apply split_dot_head_dot_free in E. congruence.
Qed.

(** An instruction under a top-level key that contains a dot never
    reaches the document: when its [__call__] returns, the loop body
    writes the value under a new first-segment key of the payload being
    iterated, and the next step of the iteration raises [RuntimeError]. *)
Theorem dotted_key_instruction_raises (set_order : list value -> list value)
    (f : nat) (document : dict) (k : string) (v nv : value) :
  isinstance_Transform v = true ->
  dot_free k = false ->
  call set_order v document (split_dot k) = Ok nv ->
  _apply_transformations set_order (S (S f)) document [(k, v)]
  = Some (Raise RuntimeError).
Proof.
  intros Hv Hk Hc.
  destruct (split_dot_dotted k Hk) as (s1 & s2 & rest & Hsplit & Hne).
  destruct (set_by_path_fresh (s2 :: rest) nv) as [sub Hsub]; [discriminate|].
  assert (Hbody : exists incs unions,
    loop_body set_order document k v (mk_state [(k, v)] [] [])
    = Ok (mk_state [(k, v); (s1, VDict sub)] incs unions)).
  { unfold loop_body. rewrite Hv, Hc, Hsplit. cbn [bind data].
    change (set_by_path [(k, v)] (s1 :: s2 :: rest) nv)
      with (match dict_get s1 [(k, v)] with
            | None => sub0 <- set_by_path [] (s2 :: rest) nv ;;
                      Ok (dict_set s1 (VDict sub0) [(k, v)])
            | Some (VDict d0) => sub0 <- set_by_path d0 (s2 :: rest) nv ;;
                                 Ok (dict_set s1 (VDict sub0) [(k, v)])
            | Some _ => Raise TypeError
            end).
    cbn [dict_get dict_set].
    destruct (String.eqb_spec s1 k) as [E|_]; [contradiction|].
    rewrite Hsub. cbn [bind data increments arr_unions].
    destruct v; try discriminate; eexists; eexists; reflexivity. }
  destruct Hbody as (incs & unions & Hbody).
  unfold _apply_transformations, first_pass.
  rewrite (iterator_leaf _ data (loop_body set_order document) (S f) [] 0%nat
             1%nat _ [(k, v)] k v);
    try reflexivity; [|now apply Transform_not_dict].
  change (join_dot ([] ++ [k])) with k.
  rewrite Hbody. reflexivity.
Qed.

Lemma dotted_key_instruction_raises_witness :
  _apply_transformations id_order 2 [("stats", VDict [("hits", VInt 1)])]
    [("stats.hits", Increment (VInt 1))]
  = Some (Raise RuntimeError).
Proof.
  exact (dotted_key_instruction_raises id_order 0
           [("stats", VDict [("hits", VInt 1)])] "stats.hits"
           (Increment (VInt 1)) (VInt 2) eq_refl eq_refl eq_refl).
Defined.

(** ** Payloads without dotted keys *)

Lemma first_pass_keys (set_order : list value -> list value)
    (fuel : nat) (document data0 : dict) (st : loop_state) :
  payload_ok (VDict data0) = true ->
  first_pass set_order fuel document data0 = Some (Ok st) ->
  keys (data st) = keys data0.
Proof.
  intros Hok Hrun.
  destruct (payload_ok_dict _ Hok) as [Hnd Hent].
  destruct (iterate_payload set_order document
              (Nat.max fuel (weight (VDict data0))) data0 [] [] data0 [] []
              0%nat (List.length data0))
    as (r & Hr & Hspec); auto; try lia.
  unfold first_pass in Hrun.
  apply (iterator_fuel_mono _ _ _ fuel (Nat.max fuel (weight (VDict data0))))
    in Hrun; [|lia].
  rewrite Hrun in Hr; injection Hr as <-.
  destruct (Hspec st eq_refl) as (todo' & Hkeys & Hdata & _).
  simpl in Hdata. now rewrite Hdata.
Qed.

(** The merge of a payload without dotted keys touches exactly the
    top-level keys of that payload: the payload it leaves has the keys it
    came with, in the same order, each of them is assigned in the
    document, and every other key of the document keeps its value. *)
Theorem merge_touches_payload_keys (set_order : list value -> list value)
    (fuel : nat) (document data0 d' p' : dict) :
  payload_ok (VDict data0) = true ->
  _apply_transformations set_order fuel document data0 = Some (Ok (d', p')) ->
  keys p' = keys data0 /\
  (forall k, In k (keys data0) ->
     exists v, dict_get k p' = Some v /\ dict_get k d' = Some v) /\
  (forall k, ~ In k (keys data0) -> dict_get k d' = dict_get k document).
Proof.
  intros Hok H.
  destruct (payload_ok_dict _ Hok) as [Hnd _].
  unfold _apply_transformations in H.
  destruct (first_pass set_order fuel document data0) as [[st|e]|] eqn:Hrun;
    try discriminate.
  destruct (first_pass_recorded _ _ _ _ _ Hok Hrun) as [Q1 Q2].
  rewrite (second_pass_noop _ _ _ _ Q1) in H. cbn [bind] in H.
  rewrite (second_pass_noop _ _ _ _ Q2) in H. cbn [bind] in H.
  injection H as <- <-.
  pose proof (first_pass_keys _ _ _ _ _ Hok Hrun) as Hkeys.
  split; [exact Hkeys|]. split.
  - intros k Hin.
    destruct (dict_get k (data st)) as [v|] eqn:Hg.
    + exists v; split; [reflexivity|].
      apply dict_update_get_in; [now rewrite Hkeys | exact Hg].
    + apply dict_get_None_keys in Hg. rewrite Hkeys in Hg. contradiction.
  - intros k Hout. apply dict_update_get_other.
    apply dict_get_None_keys. now rewrite Hkeys.
Qed.

Lemma merge_touches_payload_keys_witness :
  let document := [("count", VInt 1); ("name", VStr "n")] in
  let data0 := [("count", Increment (VInt 2)); ("tags", ArrayUnion [VStr "y"])] in
  let d' := [("count", VInt 3); ("name", VStr "n"); ("tags", VList [VStr "y"])] in
  let p' := [("count", VInt 3); ("tags", VList [VStr "y"])] in
  keys p' = keys data0 /\
  (forall k, In k (keys data0) ->
     exists v, dict_get k p' = Some v /\ dict_get k d' = Some v) /\
  (forall k, ~ In k (keys data0) -> dict_get k d' = dict_get k document).
Proof.
  exact (merge_touches_payload_keys id_order 3
           [("count", VInt 1); ("name", VStr "n")]
           [("count", Increment (VInt 2)); ("tags", ArrayUnion [VStr "y"])]
           [("count", VInt 3); ("name", VStr "n"); ("tags", VList [VStr "y"])]
           [("count", VInt 3); ("tags", VList [VStr "y"])]
           eq_refl eq_refl).
Defined.

(** ** The second pass on its own *)

(** When [_update_data_with_firestore_transforms] returns, the path of
    the entry it handled last holds the document's value there (the
    default when it cannot be read) plus that entry's operand, whatever
    the earlier entries wrote. *)
Theorem second_pass_last_entry_wins (document rest : dict) (default : value)
    (key : string) (op : value) :
  forall d d',
    _update_data_with_firestore_transforms document (rest ++ [(key, op)])
      default d = Ok d' ->
    exists val,
      second_value document default (split_dot key) op = Ok val /\
      get_by_path (VDict d') (split_dot key) = Ok val.
Proof.
  induction rest as [|[key0 op0] rest IH]; intros d d' H; simpl in H.
  - unfold second_value.
    destruct (except_TypeError_KeyError
                (get_by_path (VDict document) (split_dot key)) default)
      as [item|]; [|discriminate].
    cbn [bind] in H |- *. destruct (py_add item op) as [s|]; [|discriminate].
    cbn [bind] in H.
    destruct (set_by_path d (split_dot key) s) as [d1|] eqn:Hs; [|discriminate].
    cbn [bind] in H. injection H as <-.
    exists s; split; [reflexivity | eapply get_set_by_path; eassumption].
  - destruct (except_TypeError_KeyError
                (get_by_path (VDict document) (split_dot key0)) default)
      as [item|]; [|discriminate].
    cbn [bind] in H. destruct (py_add item op0) as [s|]; [|discriminate].
    cbn [bind] in H.
    destruct (set_by_path d (split_dot key0) s) as [d1|]; [|discriminate].
    cbn [bind] in H. now apply IH with d1.
Qed.

Lemma second_pass_last_entry_wins_witness :
  exists val,
    second_value [("n", VInt 1)] (VInt 0) (split_dot "n") (VInt 5) = Ok val /\
    get_by_path (VDict [("n", VInt 6)]) (split_dot "n") = Ok val.
Proof.
  exact (second_pass_last_entry_wins [("n", VInt 1)] [("n", VInt 2)] (VInt 0)
           "n" (VInt 5) [("n", VInt 3)] [("n", VInt 6)] eq_refl).
Defined.

(** ** The constructors *)


